(** * Elastic scaling drawer: trigger configuration

    A shallow embedding of
    [shell/app/modules/runtime/pages/overview/components/elastic-scaling.tsx]:
    the field effects registered with [createForm], the [TriggersConfig]
    component (type options, add / edit / cancel), the field table given to
    [createFields] and the drawer's [onSubmit].

    JavaScript values are an inductive type, React state is a record that the
    handlers pass along, the fields of the form are a finite map from field
    address to field state, and the calls a handler makes to the outside
    (messages, services) are returned as a list of actions. *)

From Stdlib Require Import ZArith QArith String Ascii List Bool Lia.
From Stdlib Require Import DecimalString DecimalZ.
From stdpp Require Import base option list gmap strings.
Import ListNotations.

Set Warnings "-register-all".

Local Close Scope Q_scope.
Local Open Scope string_scope.
Local Open Scope list_scope.
Local Open Scope Z_scope.

(** ** JavaScript values and the primitive operations the component uses *)

Module JS.

(** Values held by fields and by the form.  A number stored in a field is an
    integer (what [InputNumber] yields for the integer inputs of this form);
    fractions only occur as results of [ToNumber], see [number]. *)
Inductive jsval : Type :=
| JUndefined
| JNull
| JBool (b : bool)
| JNum (n : Z)
| JStr (s : string)
| JObj (props : list (string * jsval))
| JArr (items : list jsval).

(** The results of reading a value as a number.  Every finite double is a
    rational, so comparing [Finite] numbers as rationals is exact. *)
Inductive number : Type :=
| NaN
| Infinity (negative : bool)
| Finite (q : Q).

(** [!!v] *)
Definition ToBoolean (v : jsval) : bool :=
  match v with
  | JUndefined | JNull => false
  | JBool b => b
  | JNum n => negb (n =? 0)
  | JStr s => negb (String.eqb s EmptyString)
  | JObj _ | JArr _ => true
  end.

(** lodash [isNumber] *)
Definition isNumber (v : jsval) : bool :=
  match v with JNum _ => true | _ => false end.

(** [v === 'literal'] *)
Definition strict_equal_string (v : jsval) (lit : string) : bool :=
  match v with JStr s => String.eqb s lit | _ => false end.


(** [Number::toString] on an integer. *)
Definition Number_toString (n : Z) : string :=
  NilZero.string_of_int (Z.to_int n).

Fixpoint join (sep : string) (l : list string) : string :=
  match l with
  | [] => EmptyString
  | [s] => s
  | s :: rest => String.append s (String.append sep (join sep rest))
  end.

(** [ToString]; an array is joined with commas, [undefined] and [null]
    elements giving the empty string. *)
Fixpoint ToString (v : jsval) : string :=
  match v with
  | JUndefined => "undefined"
  | JNull => "null"
  | JBool true => "true"
  | JBool false => "false"
  | JNum n => Number_toString n
  | JStr s => s
  | JObj _ => "[object Object]"
  | JArr items =>
      join "," (List.map (fun x => match x with
                                   | JUndefined | JNull => EmptyString
                                   | _ => ToString x
                                   end) items)
  end.

(** A template literal with one substitution and no text: [`${v}`]. *)
Definition template (v : jsval) : string := ToString v.

Definition Qlt_bool (p q : Q) : bool := negb (Qle_bool q p).

(** [x < y] on numbers; a comparison with [NaN] is false. *)
Definition number_lt (x y : number) : bool :=
  match x, y with
  | NaN, _ => false
  | _, NaN => false
  | Infinity true, Infinity true => false
  | Infinity true, _ => true
  | Infinity false, _ => false
  | Finite _, Infinity neg => negb neg
  | Finite p, Finite q => Qlt_bool p q
  end.

(** [x > y] *)
Definition number_gt (x y : number) : bool := number_lt y x.

Definition number_of_Z (n : Z) : number := Finite (inject_Z n).

(** Property read [o.k] on an object literal.  The other values have no own
    property of the names read here ([undefined] and [null] throw instead;
    the component reads properties of objects only). *)
Fixpoint lookup_prop (k : string) (props : list (string * jsval)) : jsval :=
  match props with
  | [] => JUndefined
  | (k', v) :: rest => if String.eqb k k' then v else lookup_prop k rest
  end.

Definition Get (v : jsval) (k : string) : jsval :=
  match v with JObj props => lookup_prop k props | _ => JUndefined end.

Section ToNumber.

(** [StringToNumber] is the language's numeric-literal reader; it is a
    parameter of everything that reads a string as a number. *)
Variable StringToNumber : string -> number.

(** Unary plus, [+v]. *)
Definition ToNumber (v : jsval) : number :=
  match v with
  | JUndefined => NaN
  | JNull => number_of_Z 0
  | JBool true => number_of_Z 1
  | JBool false => number_of_Z 0
  | JNum n => number_of_Z n
  | JStr s => StringToNumber s
  | JObj _ | JArr _ => StringToNumber (ToString v)
  end.

End ToNumber.

(** A reader for the integer numerals, to run the drawer on examples: the
    empty string is 0, an optionally negated run of digits is its value,
    anything else is not read. *)
Definition integer_StringToNumber (s : string) : number :=
  if String.eqb s EmptyString then number_of_Z 0
  else match NilZero.int_of_string s with
       | Some d => number_of_Z (Z.of_int d)
       | None => NaN
       end.

(** [Array.prototype.push] with one item. *)
Definition push {A} (l : list A) (x : A) : list A := l ++ [x].

(** [Array.prototype.splice(index, 1)]: a negative index counts from the
    end, an index past the end removes nothing. *)
Definition splice1 {A} (index : Z) (l : list A) : list A :=
  let len := Z.of_nat (length l) in
  let start := if index <? 0 then Z.max (len + index) 0 else Z.min index len in
  take (Z.to_nat start) l ++ drop (S (Z.to_nat start)) l.

End JS.
Import JS.

(** ** Field addresses and path patterns *)

(** A segment of a field address: [triggers.0.type] is
    [[Key "triggers"; Index 0; Key "type"]]. *)
Inductive segment : Type :=
| Key (k : string)
| Index (i : nat).

#[global] Instance segment_eq_dec : EqDecision segment.
Proof. solve_decision. Defined.

#[global] Instance segment_countable : Countable segment.
Proof.
  refine (inj_countable'
            (fun s => match s with Key k => inl k | Index i => inr i end)
            (fun x => match x with inl k => Key k | inr i => Index i end) _).
  intros []; reflexivity.
Defined.

(** A segment of a pattern; [Any] is the wildcard [*], which stands for one
    segment. *)
Inductive pattern_segment : Type :=
| Lit (s : segment)
| Any.

Definition segment_matches (p : pattern_segment) (s : segment) : bool :=
  match p with
  | Any => true
  | Lit s' => bool_decide (s' = s)
  end.

Fixpoint path_matches (pat : list pattern_segment) (p : list segment) : bool :=
  match pat, p with
  | [], [] => true
  | ps :: pat', s :: p' => segment_matches ps s && path_matches pat' p'
  | _, _ => false
  end.

(** [address.pop()]: the address without its last segment. *)
Definition pop (a : list segment) : list segment := removelast a.

(** [address.concat('a.b.c')] with the dotted argument already split. *)
Definition concat (a : list segment) (keys : list string) : list segment :=
  a ++ List.map Key keys.

(** ** The form: fields and the operations on them *)

(** The [display] of a field. *)
Inductive Display : Type :=
| display_visible
| display_hidden
| display_none.

#[global] Instance Display_eq_dec : EqDecision Display.
Proof. solve_decision. Defined.

(** The state of one field of the form.  [field_path] is the data path, the
    address without the segments of void fields; [field_isVoid] tells a
    layout field from a data field ([isField] is its negation). *)
Record Field : Type := mkField {
  field_path : list segment;
  field_isVoid : bool;
  field_display : Display;
  field_value : jsval;
}.

Definition isField (f : Field) : bool := negb (field_isVoid f).

Definition with_display (d : Display) (f : Field) : Field :=
  mkField (field_path f) (field_isVoid f) d (field_value f).

Definition with_value (v : jsval) (f : Field) : Field :=
  mkField (field_path f) (field_isVoid f) (field_display f) v.

(** The fields of a form by address. *)
Abbreviation Fields := (gmap (list segment) Field).

(** Modelled from the spec: [field.query(address).take()] of the form
    library, the field registered at that address if there is one. *)
Definition take_field (a : list segment) (fields : Fields) : option Field :=
  fields !! a.

(** Modelled from the spec: [target?.setDisplay(d)] of the form library.  It
    sets the display decision of that field and nothing else; an absent
    target is skipped by the optional chaining. *)
Definition setDisplay (d : Display) (a : list segment) (fields : Fields) : Fields :=
  alter (with_display d) a fields.

(** Modelled from the spec: [field.setValue(v)] of the form library: the
    field's value becomes [v]. *)
Definition setValue (v : jsval) (a : list segment) (fields : Fields) : Fields :=
  alter (with_value v) a fields.

(** [isField(target) && target?.setValue(v)] *)
Definition setValue_if_field (v : jsval) (a : list segment) (fields : Fields) : Fields :=
  match take_field a fields with
  | Some f => if isField f then setValue v a fields else fields
  | None => fields
  end.

(** Statements of a callback run one after the other on the fields. *)
Notation "s '|>' f" := (f s) (at level 45, left associativity, only parsing).

(** ** The effects given to [createForm] *)

Module Effects.

(** ['triggers.*.type'] *)
Definition type_pattern : list pattern_segment :=
  [Lit (Key "triggers"); Any; Lit (Key "type")].

(** ['triggers.*.*.value'] *)
Definition value_pattern : list pattern_segment :=
  [Lit (Key "triggers"); Any; Any; Lit (Key "value")].

(** ['triggers.*.*.desiredReplicas'] *)
Definition desiredReplicas_pattern : list pattern_segment :=
  [Lit (Key "triggers"); Any; Any; Lit (Key "desiredReplicas")].

(** [field.address.pop().concat('metadata.layout.grid')] *)
Definition metadataPath (address : list segment) : list segment :=
  concat (pop address) ["metadata"; "layout"; "grid"].

(** The callback of [onFieldReact('triggers.*.type', ...)], run on the field
    at [address]. *)
Definition onTypeReact (address : list segment) (fields : Fields) : Fields :=
  match take_field address fields with
  | None => fields
  | Some field =>
      if isField field then
        let value := field_value field in
        let valueField := concat (metadataPath address) ["value"] in
        let startField := concat (metadataPath address) ["start"] in
        let endField := concat (metadataPath address) ["end"] in
        let desiredReplicasField := concat (metadataPath address) ["desiredReplicas"] in
        let subTypePathField := concat (metadataPath address) ["type"] in
        let timezoneField := concat (metadataPath address) ["timezone"] in
        if negb (ToBoolean value) then
          fields
          |> setDisplay display_none valueField
          |> setDisplay display_none startField
          |> setDisplay display_none endField
          |> setDisplay display_none desiredReplicasField
        else if negb (strict_equal_string value "cron") then
          fields
          |> setDisplay display_visible valueField
          |> setDisplay display_none startField
          |> setDisplay display_none endField
          |> setDisplay display_none desiredReplicasField
          |> setDisplay display_hidden subTypePathField
          |> setValue_if_field (JStr "Utilization") subTypePathField
          |> setDisplay display_none timezoneField
        else
          fields
          |> setDisplay display_none valueField
          |> setDisplay display_visible startField
          |> setDisplay display_visible endField
          |> setDisplay display_visible desiredReplicasField
          |> setDisplay display_none subTypePathField
          |> setDisplay display_hidden timezoneField
          |> setValue_if_field (JStr "Asia/Shanghai") timezoneField
      else fields
  end.

(** The value the two [onFieldValueChange] callbacks store:
    [isNumber(field.value) ? `${field.value}` : field.value]. *)
Definition normalized (v : jsval) : jsval :=
  if isNumber v then JStr (template v) else v.

(** The callback of [onFieldValueChange('triggers.*.*.value', ...)] and of
    [onFieldValueChange('triggers.*.*.desiredReplicas', ...)]. *)
Definition onNumericValueChange (address : list segment) (fields : Fields) : Fields :=
  match take_field address fields with
  | None => fields
  | Some field => setValue (normalized (field_value field)) address fields
  end.

(** An effect: the kind of hook, its pattern and its callback. *)
Inductive Effect : Type :=
| onFieldReact (pattern : list pattern_segment)
               (callback : list segment -> Fields -> Fields)
| onFieldValueChange (pattern : list pattern_segment)
                     (callback : list segment -> Fields -> Fields).

Definition effect_pattern (e : Effect) : list pattern_segment :=
  match e with onFieldReact p _ | onFieldValueChange p _ => p end.

Definition effect_callback (e : Effect) : list segment -> Fields -> Fields :=
  match e with onFieldReact _ c | onFieldValueChange _ c => c end.

(** The [effects] of [createForm], in the order they are registered. *)
Definition effects : list Effect :=
  [ onFieldReact type_pattern onTypeReact;
    onFieldValueChange value_pattern onNumericValueChange;
    onFieldValueChange desiredReplicas_pattern onNumericValueChange ].

(** Modelled from the spec: the form library offers a field to a hook when
    the hook's pattern matches the field's address or its data path. *)
Definition effect_applies (e : Effect) (address : list segment) (f : Field) : bool :=
  path_matches (effect_pattern e) address
  || path_matches (effect_pattern e) (field_path f).

Definition run_effect (address : list segment) (fields : Fields) (e : Effect) : Fields :=
  match take_field address fields with
  | Some f => if effect_applies e address f then effect_callback e address fields
              else fields
  | None => fields
  end.

(** Modelled from the spec: a value change of the field at [address] as the
    form library carries it out: the new value is stored, then every effect
    whose pattern matches the field runs, in registration order. *)
Definition change_value (address : list segment) (v : jsval) (fields : Fields) : Fields :=
  fold_left (run_effect address) effects (setValue v address fields).

End Effects.

(** ** The [TriggersConfig] component *)

(** [i18n.s(text, namespace)]: the text in the default locale. *)
Definition i18n_s (text : string) : string := text.

(** An item of the [triggers] array.  A property that is absent reads as
    [undefined], so [{}] is the item with both properties [undefined]. *)
Record Trigger : Type := mkTrigger {
  trigger_type : jsval;
  trigger_metadata : jsval;
}.

(** [{}] *)
Definition empty_object : Trigger := mkTrigger JUndefined JUndefined.

Record TypeOption : Type := mkTypeOption {
  option_value : string;
  option_label : string;
}.

Definition typeOptions : list TypeOption :=
  [ mkTypeOption "cpu" "CPU";
    mkTypeOption "memory" (i18n_s "memory");
    mkTypeOption "cron" "Cron" ].

Module TriggersConfig.

(** A row of the table. *)
Record Row : Type := mkRow {
  row_type : string;
  row_value : jsval;
  row_index : nat;
}.

(** The React state of the component together with the value of the array
    field it edits ([props.value], which is [field.value]) and the [options]
    component property of the type field shown in the modal. *)
Record State : Type := mkState {
  value : list Trigger;
  visible : bool;
  previousValue : option (list Trigger);
  isEditing : bool;
  currentIndex : Z;
  options : list TypeOption;
}.

(** The rows [setDataSource] computes: one per item with a truthy type. *)
Definition dataSource (items : list Trigger) : list Row :=
  omap id
    (imap (fun index item =>
             if negb (ToBoolean (trigger_type item)) then None
             else if strict_equal_string (trigger_type item) "cron"
                  then Some (mkRow "Cron" (JStr EmptyString) index)
                  else Some (mkRow (if strict_equal_string (trigger_type item) "cpu"
                                    then "CPU" else i18n_s "memory")
                                   (Get (trigger_metadata item) "value")
                                   index))
          items).

(** [currentTypes]: the truthy types of the items, in order. *)
Definition currentTypes (items : list Trigger) : list jsval :=
  fold_left (fun acc item =>
               if ToBoolean (trigger_type item) then push acc (trigger_type item)
               else acc)
            items [].

(** [currentTypes.includes(value)] for a string [value]. *)
Definition includes (types : list jsval) (v : string) : bool :=
  existsb (fun t => strict_equal_string t v) types.

(** Modelled from the spec: [field.query(`triggers[${currentIndex}].type`).take()]
    of the form library: the type field of the item at [currentIndex], a data
    field whose value is that item's [type]; there is none when the array
    has no item at that index. *)
Definition currentTypeField (items : list Trigger) (index : Z) : option Field :=
  if index <? 0 then None
  else (fun item => mkField [Key "triggers"; Index (Z.to_nat index); Key "type"]
                            false display_visible (trigger_type item))
       <$> items !! Z.to_nat index.

(** The options the effect on [[visible, currentTypes, currentIndex]] gives to
    the current type field; [None] is the [TypeError] of calling
    [setComponentProps] on [undefined]. *)
Definition filtered_options (items : list Trigger) (index : Z) : option (list TypeOption) :=
  match currentTypeField items index with
  | None => None
  | Some field =>
      Some (List.filter
              (fun o => negb (includes (currentTypes items) (option_value o))
                        || (isField field
                            && strict_equal_string (field_value field) (option_value o)))
              typeOptions)
  end.

Definition options_effect (s : State) : option State :=
  if visible s then
    match filtered_options (value s) (currentIndex s) with
    | Some opts => Some (mkState (value s) (visible s) (previousValue s)
                                 (isEditing s) (currentIndex s) opts)
    | None => None
    end
  else Some s.

Definition onAddRule (s : State) : State :=
  let value' := push (value s) empty_object in
  mkState value' true (previousValue s) false
          (Z.of_nat (length value') - 1) (options s).

(** [onOk]; [valid] tells whether [field.validate()] resolved. *)
Definition onOk (valid : bool) (s : State) : State :=
  if valid then
    mkState (value s) false (previousValue s) (isEditing s) (currentIndex s) (options s)
  else s.

(** [onClose]; [field.setValue(null)] leaves the field without items. *)
Definition onClose (s : State) : State :=
  if isEditing s then
    mkState (default [] (previousValue s)) false (previousValue s)
            (isEditing s) (currentIndex s) (options s)
  else
    mkState (splice1 (currentIndex s) (value s)) false (previousValue s)
            (isEditing s) (-1) (options s).

(** The [onClick] of the edit action; [index] is the second argument of the
    [render] of the actions, the index of the row.  [toJS] copies the value,
    which a value that is never mutated does already. *)
Definition edit_onClick (index : nat) (s : State) : State :=
  mkState (value s) true (Some (value s)) true (Z.of_nat index) (options s).

(** The [onClick] of the delete action of the row at [index]. *)
Definition delete_onClick (index : nat) (s : State) : State :=
  mkState (splice1 (Z.of_nat index) (value s)) (visible s) (previousValue s)
          (isEditing s) (-1) (options s).

(** An input in the modal: the fields of [RecursionField name={currentIndex}]
    write into the item at [currentIndex]; [item] is that item afterwards.
    The modal is rendered for a [currentIndex] other than -1 and is shown for
    an item of the array, so there is no write before or past the array. *)
Definition input (item : Trigger) (s : State) : State :=
  if currentIndex s <? 0 then s
  else mkState (<[Z.to_nat (currentIndex s) := item]> (value s)) (visible s)
               (previousValue s) (isEditing s) (currentIndex s) (options s).

Definition btnDisabled (s : State) : bool :=
  (length (currentTypes (value s)) =? 3)%nat.

(** The component as mounted on a list of items. *)
Definition initial (items : list Trigger) : State :=
  mkState items false None false (-1) [].

(** One interaction of the user with the component.  The add button is usable
    when it is not disabled, the row actions exist for the rows of the table,
    and while the modal is shown the user can only act inside it: pick one of
    the options offered for the type, fill the other fields of the item,
    confirm or cancel.  The options effect runs after the handlers that show
    the modal, and may run again on any render. *)
Inductive step : State -> State -> Prop :=
| step_add s s' :
    visible s = false -> btnDisabled s = false ->
    options_effect (onAddRule s) = Some s' ->
    step s s'
| step_edit s s' (row : nat) :
    visible s = false -> (row < length (dataSource (value s)))%nat ->
    options_effect (edit_onClick row s) = Some s' ->
    step s s'
| step_delete s (row : nat) :
    visible s = false -> (row < length (dataSource (value s)))%nat ->
    step s (delete_onClick row s)
| step_select s o item metadata :
    visible s = true -> In o (options s) ->
    0 <= currentIndex s ->
    value s !! Z.to_nat (currentIndex s) = Some item ->
    step s (input (mkTrigger (JStr (option_value o)) metadata) s)
| step_fill s item metadata :
    visible s = true ->
    0 <= currentIndex s ->
    value s !! Z.to_nat (currentIndex s) = Some item ->
    step s (input (mkTrigger (trigger_type item) metadata) s)
| step_ok s :
    visible s = true -> step s (onOk true s)
| step_cancel s :
    visible s = true -> step s (onClose s)
| step_render s s' :
    options_effect s = Some s' -> step s s'.

(** The states the user can bring the component to from the items it was
    mounted on. *)
Inductive reachable (items : list Trigger) : State -> Prop :=
| reachable_initial : reachable items (initial items)
| reachable_step s s' : reachable items s -> step s s' -> reachable items s'.

(** The number of items whose type is [t]. *)
Definition count_type (t : string) (items : list Trigger) : nat :=
  length (List.filter (fun item => strict_equal_string (trigger_type item) t) items).

(** Every item with a non-empty type has one of the three option values as
    its type. *)
Definition types_known (items : list Trigger) : Prop :=
  forall item, In item items -> ToBoolean (trigger_type item) = true ->
    exists o, In o typeOptions /\ trigger_type item = JStr (option_value o).

(** At most one item of each of the three types. *)
Definition one_per_type (items : list Trigger) : Prop :=
  forall o, In o typeOptions -> (count_type (option_value o) items <= 1)%nat.

(** No two items hold the same non-empty type. *)
Definition distinct_types (items : list Trigger) : Prop :=
  forall i j a b,
    items !! i = Some a -> items !! j = Some b ->
    ToBoolean (trigger_type a) = true -> trigger_type a = trigger_type b ->
    i = j.

Definition well_formed (items : list Trigger) : Prop :=
  types_known items /\ distinct_types items.

(** Every option in [opts] is one of the three and its type is held by no
    item other than the one at [index]. *)
Definition options_sound (items : list Trigger) (index : Z) (opts : list TypeOption) : Prop :=
  forall o, In o opts ->
    In o typeOptions
    /\ forall j b, items !! j = Some b -> Z.of_nat j <> index ->
                   trigger_type b <> JStr (option_value o).

(** What holds of every reachable state. *)
Definition invariant (s : State) : Prop :=
  well_formed (value s)
  /\ (visible s = true -> isEditing s = true ->
      exists pv, previousValue s = Some pv /\ well_formed pv)
  /\ (visible s = true -> options_sound (value s) (currentIndex s) (options s)).

(** The inputs made in the modal, one after the other. *)
Definition inputs (edits : list Trigger) (s : State) : State :=
  fold_left (fun s item => input item s) edits s.

End TriggersConfig.

(** ** The [ElasticScaling] drawer *)

(** [RUNTIME.ScaledConfig], the values of the form. *)
Record ScaledConfig : Type := mkScaledConfig {
  maxReplicaCount : jsval;
  minReplicaCount : jsval;
  triggers : list Trigger;
}.

(** A rule as [getScaledRules] returns it. *)
Record ScaledRule : Type := mkScaledRule {
  ruleId : string;
  isApplied : string;
  scaledConfig : ScaledConfig;
}.

(** A rule of a field's [validator]. *)
Inductive ValidatorRule : Type :=
| required_rule (message : string)
| validator_rule (validator : jsval -> bool) (message : string).

(** An entry of the table given to [createFields], listed under the data
    path its nesting gives it. *)
Record FieldConfig : Type := mkFieldConfig {
  config_path : list pattern_segment;
  config_display : Display;
  config_defaultValue : jsval;
  config_rules : list ValidatorRule;
}.

(** What [form.validate()] rejects with: one entry per invalid field. *)
Record IFormFeedback : Type := mkFeedback {
  feedback_address : list segment;
  messages : list string;
}.

(** What the drawer does to the outside. *)
Inductive Action : Type :=
| message_error (text : string)
| updateScaledRules (runtimeId : number) (rule : option string)
                    (config : ScaledConfig) (successMsg : string)
| createScaledRules (runtimeId : number) (service : string)
                    (config : ScaledConfig) (successMsg : string)
| props_onClose.

(** The props of the drawer, the data of [getScaledRules.useData()]
    ([None] before anything is fetched) and the form. *)
Record Drawer : Type := mkDrawer {
  runtimeId : string;
  serviceName : string;
  scaledRules : option (list ScaledRule);
  form_fields : Fields;
  form_values : ScaledConfig;
}.

(** Modelled from the spec: the message of a [required: true] that gives no
    message of its own; the text comes from the form library's locale. *)
Definition default_required_message : string := "The field value is required".

(** Modelled from the spec: the values the form library's required rule
    counts as missing. *)
Definition isEmpty (v : jsval) : bool :=
  match v with
  | JUndefined | JNull => true
  | JStr s => String.eqb s EmptyString
  | JArr [] => true
  | _ => false
  end.

(** The message of a rule that fails on [v], if it does. *)
Definition rule_failure (v : jsval) (r : ValidatorRule) : option string :=
  match r with
  | required_rule message => if isEmpty v then Some message else None
  | validator_rule validator message => if validator v then None else Some message
  end.

Definition item_path (keys : list string) : list pattern_segment :=
  [Lit (Key "triggers"); Any] ++ List.map (fun k => Lit (Key k)) keys.

Section ElasticScaling.

Variable StringToNumber : string -> number.

(** The [validator] of [metadata.value]: [(v) => +v > 0 && +v < 100]. *)
Definition percentage_validator (v : jsval) : bool :=
  number_gt (ToNumber StringToNumber v) (number_of_Z 0)
  && number_lt (ToNumber StringToNumber v) (number_of_Z 100).

Definition percentage_message : string :=
  i18n_s "The value must be greater than 0 and less than 100".

(** The data fields of [fieldsConfig].  A [required: true] contributes a
    required rule with the default message, unless the [validator] of the
    field has a required rule already. *)
Definition fieldsConfig : list FieldConfig :=
  [ mkFieldConfig [Lit (Key "triggers")] display_visible JUndefined
      [required_rule (i18n_s "At least one trigger")];
    mkFieldConfig (item_path ["type"]) display_visible JUndefined
      [required_rule default_required_message];
    mkFieldConfig (item_path ["metadata"]) display_visible JUndefined [];
    mkFieldConfig (item_path ["metadata"; "type"]) display_none (JStr "Utilization") [];
    mkFieldConfig (item_path ["metadata"; "timezone"]) display_none (JStr "Asia/Shanghai") [];
    mkFieldConfig (item_path ["metadata"; "value"]) display_none JUndefined
      [required_rule default_required_message;
       validator_rule percentage_validator percentage_message];
    mkFieldConfig (item_path ["metadata"; "start"]) display_none JUndefined
      [required_rule default_required_message];
    mkFieldConfig (item_path ["metadata"; "end"]) display_none JUndefined
      [required_rule default_required_message];
    mkFieldConfig (item_path ["metadata"; "desiredReplicas"]) display_none JUndefined
      [required_rule default_required_message];
    mkFieldConfig [Lit (Key "minReplicaCount")] display_visible JUndefined
      [required_rule (i18n_s "The minimum number of service instances is required")];
    mkFieldConfig [Lit (Key "maxReplicaCount")] display_visible JUndefined
      [required_rule (i18n_s "The maximum number of service instances is required")] ].

(** The rules of the field with data path [path]. *)
Definition rules_of (path : list segment) : list ValidatorRule :=
  match List.find (fun c => path_matches (config_path c) path) fieldsConfig with
  | Some c => config_rules c
  | None => []
  end.

(** Modelled from the spec: validation of one field by the form library.  A
    data field that is displayed is checked against its rules; it is invalid
    when a rule fails, and its feedback lists the messages of the failing
    rules.  Layout fields and fields that are not displayed are not checked. *)
Definition validate_field (address : list segment) (f : Field) : option IFormFeedback :=
  if isField f && bool_decide (field_display f = display_visible) then
    match omap (rule_failure (field_value f)) (rules_of (field_path f)) with
    | [] => None
    | failures => Some (mkFeedback address failures)
    end
  else None.

(** Modelled from the spec: [form.validate()] of the form library: it
    resolves when the list is empty and rejects with the list otherwise. *)
Definition validate (fields : Fields) : list IFormFeedback :=
  omap (fun '(address, f) => validate_field address f) (map_to_list fields).

Definition isEditing (d : Drawer) : bool :=
  match scaledRules d with
  | Some rules => negb (length rules =? 0)%nat
  | None => false
  end.

(** [onSubmit]; [resolves] tells whether the awaited service call resolved. *)
Definition onSubmit (resolves : bool) (d : Drawer) : list Action :=
  match validate (form_fields d) with
  | (_ :: _) as errs =>
      List.map (fun err => message_error (join ", " (messages err))) errs
  | [] =>
      let values := form_values d in
      let values :=
        mkScaledConfig (maxReplicaCount values) (minReplicaCount values)
          (List.filter (fun t => ToBoolean (trigger_type t)) (triggers values)) in
      (if isEditing d then
         updateScaledRules (ToNumber StringToNumber (JStr (runtimeId d)))
           (ruleId <$> (scaledRules d ≫= head)) values
           (i18n_s "update successfully")
       else
         createScaledRules (ToNumber StringToNumber (JStr (runtimeId d)))
           (serviceName d) values (i18n_s "create successfully"))
      :: (if resolves then [props_onClose] else [])
  end.

End ElasticScaling.

(** The fields the form library registers for the item at [index]; the six
    fields of [metadata] sit below the [layout] and [grid] fields that
    [createFields] wraps around the properties of an object. *)
Definition item_address (index : nat) (keys : list string) : list segment :=
  concat [Key "triggers"; Index index] keys.

Definition item_fields (index : nat) (type : jsval) : list (list segment * Field) :=
  [ (item_address index ["type"],
     mkField (item_address index ["type"]) false display_visible type);
    (item_address index ["metadata"; "layout"],
     mkField (item_address index ["metadata"]) true display_visible JUndefined);
    (item_address index ["metadata"; "layout"; "grid"],
     mkField (item_address index ["metadata"]) true display_visible JUndefined);
    (item_address index ["metadata"; "layout"; "grid"; "type"],
     mkField (item_address index ["metadata"; "type"]) false display_none
             (JStr "Utilization"));
    (item_address index ["metadata"; "layout"; "grid"; "timezone"],
     mkField (item_address index ["metadata"; "timezone"]) false display_none
             (JStr "Asia/Shanghai"));
    (item_address index ["metadata"; "layout"; "grid"; "value"],
     mkField (item_address index ["metadata"; "value"]) false display_none JUndefined);
    (item_address index ["metadata"; "layout"; "grid"; "start"],
     mkField (item_address index ["metadata"; "start"]) false display_none JUndefined);
    (item_address index ["metadata"; "layout"; "grid"; "end"],
     mkField (item_address index ["metadata"; "end"]) false display_none JUndefined);
    (item_address index ["metadata"; "layout"; "grid"; "desiredReplicas"],
     mkField (item_address index ["metadata"; "desiredReplicas"]) false display_none
             JUndefined) ].

(** ** Vocabulary of the properties *)

Definition display_of (a : list segment) (fields : Fields) : option Display :=
  field_display <$> fields !! a.

Definition value_of (a : list segment) (fields : Fields) : option jsval :=
  field_value <$> fields !! a.

(** The address of the field [name] of the metadata that belongs to the type
    field at [address]. *)
Definition metadata_field (address : list segment) (name : string) : list segment :=
  concat (Effects.metadataPath address) [name].

Definition metadata_names : list string :=
  ["value"; "start"; "end"; "desiredReplicas"; "type"; "timezone"].

(** The six metadata fields next to the type field at [address] are
    registered in the form as data fields. *)
Definition metadata_mounted (address : list segment) (fields : Fields) : Prop :=
  forall name, In name metadata_names ->
    exists f, fields !! metadata_field address name = Some f /\ isField f = true.

(** [f], registered at [address], is the type field of the item at index [i]:
    a data field with data path [triggers.i.type], whose address ends with
    its name. *)
Definition trigger_type_field (i : nat) (address : list segment) (f : Field) : Prop :=
  isField f = true
  /\ field_path f = [Key "triggers"; Index i; Key "type"]
  /\ last address = Some (Key "type").

(** [f] is a field that ['triggers.*.*.value'] or
    ['triggers.*.*.desiredReplicas'] matches. *)
Definition numeric_field (address : list segment) (f : Field) : Prop :=
  Effects.effect_applies
    (Effects.onFieldValueChange Effects.value_pattern Effects.onNumericValueChange)
    address f = true
  \/ Effects.effect_applies
       (Effects.onFieldValueChange Effects.desiredReplicas_pattern
                                   Effects.onNumericValueChange)
       address f = true.


(** The configuration a service call carries. *)
Definition sent_config (a : Action) : option ScaledConfig :=
  match a with
  | updateScaledRules _ _ config _ | createScaledRules _ _ config _ => Some config
  | _ => None
  end.

(** The rule ids of the [updateScaledRules] calls among [actions]. *)
Definition update_calls (actions : list Action) : list (option string) :=
  omap (fun a => match a with
                 | updateScaledRules _ rule _ _ => Some rule
                 | _ => None
                 end) actions.

(** The service names of the [createScaledRules] calls among [actions]. *)
Definition create_calls (actions : list Action) : list string :=
  omap (fun a => match a with
                 | createScaledRules _ service _ _ => Some service
                 | _ => None
                 end) actions.

(** Some fetched rule has at least one trigger. *)
Definition fetched_rule_has_trigger (d : Drawer) : Prop :=
  exists rules r, scaledRules d = Some rules /\ In r rules
                  /\ triggers (scaledConfig r) <> [].

(** The keep-only-typed filter of [onSubmit]. *)
Definition typed_triggers (items : list Trigger) : list Trigger :=
  List.filter (fun t => ToBoolean (trigger_type t)) items.

(** ** A form filled in by the user *)

(** The fields outside the items: the array field and the two counts, which
    sit below the void field of the replica range. *)
Definition top_fields (items min max : jsval) : list (list segment * Field) :=
  [ ([Key "triggers"], mkField [Key "triggers"] false display_visible items);
    ([Key "void"], mkField [] true display_visible JUndefined);
    ([Key "void"; Key "layout"; Key "grid"; Key "minReplicaCount"],
     mkField [Key "minReplicaCount"] false display_visible min);
    ([Key "void"; Key "layout"; Key "grid"; Key "maxReplicaCount"],
     mkField [Key "maxReplicaCount"] false display_visible max) ].

(** The item the user gets by picking ['cpu'] and entering [percentage]. *)
Definition cpu_item (percentage : jsval) : Trigger :=
  mkTrigger (JStr "cpu")
            (JObj [("type", JStr "Utilization"); ("value", Effects.normalized percentage)]).

Definition trigger_object (t : Trigger) : jsval :=
  JObj [("type", trigger_type t); ("metadata", trigger_metadata t)].

(** The fields after the user added one trigger, picked ['cpu'], entered
    [percentage] and set the two counts. *)
Definition cpu_form_fields (percentage min max : jsval) : Fields :=
  Effects.change_value (item_address 0 ["metadata"; "layout"; "grid"; "value"]) percentage
    (Effects.change_value (item_address 0 ["type"]) (JStr "cpu")
       (list_to_map (top_fields (JArr [trigger_object (cpu_item percentage)]) min max
                     ++ item_fields 0 JUndefined))).

(** The drawer holding that form, for the data [rules] of
    [getScaledRules.useData()]. *)
Definition cpu_drawer (rules : option (list ScaledRule)) (percentage min max : jsval) : Drawer :=
  mkDrawer "42" "web" rules (cpu_form_fields percentage min max)
           (mkScaledConfig max min [cpu_item percentage]).

(** A fetched rule that has no trigger. *)
Definition rule_without_triggers : ScaledRule :=
  mkScaledRule "rule-1" "N" (mkScaledConfig (JNum 1) (JNum 1) []).

(** ** The table, the status title and the shape of the fields *)

(** The entry [setDataSource] makes of the item at [index], if any. *)
Definition row_of (index : nat) (item : Trigger) : option TriggersConfig.Row :=
  if negb (ToBoolean (trigger_type item)) then None
  else if strict_equal_string (trigger_type item) "cron"
       then Some (TriggersConfig.mkRow "Cron" (JStr EmptyString) index)
       else Some (TriggersConfig.mkRow
                    (if strict_equal_string (trigger_type item) "cpu"
                     then "CPU" else i18n_s "memory")
                    (Get (trigger_metadata item) "value")
                    index).

(** [text ?? fallback] *)
Definition nullish (text fallback : jsval) : jsval :=
  match text with
  | JUndefined | JNull => fallback
  | _ => text
  end.

(** The [render] of the value column:
    [(text) => (`${text}` ? `${text ?? '-'}%` : '')]. *)
Definition render_value (text : jsval) : string :=
  if ToBoolean (JStr (template text))
  then String.append (template (nullish text (JStr "-"))) "%"
  else EmptyString.

(** The modal is on an item of the array. *)
Definition on_item (s : TriggersConfig.State) : Prop :=
  0 <= TriggersConfig.currentIndex s
       < Z.of_nat (length (TriggersConfig.value s)).

(** While the modal is shown it is on an item of the array, and an edit has
    its snapshot. *)
Definition shown_on_item (s : TriggersConfig.State) : Prop :=
  TriggersConfig.visible s = true ->
  on_item s
  /\ (TriggersConfig.isEditing s = true ->
      exists pv, TriggersConfig.previousValue s = Some pv).

(** What the effects leave alone in a field: its data path and its kind. *)
Definition shape (f : Field) : list segment * bool :=
  (field_path f, field_isVoid f).

Module StatusTitle.

(** What the title does to the outside. *)
Inductive Call : Type :=
| applyCancelRules (runtimeId : number) (rule : jsval) (action : string)
                   (successMsg : string)
| toggleStatus.

Record Props : Type := mkProps {
  props_started : bool;
  props_runtimeId : number;
  props_ruleId : jsval;
}.

(** [takeAction]; [resolves] tells whether the awaited call resolved. *)
Definition takeAction (resolves isCancel : bool) (p : Props) : list Call :=
  applyCancelRules (props_runtimeId p) (props_ruleId p)
                   (if isCancel then "cancel" else "apply")
                   (i18n_s "operate successfully")
  :: (if resolves then [toggleStatus] else []).

(** The text of the tag, when there is one. *)
Definition tag (p : Props) : option string :=
  if negb (ToBoolean (props_ruleId p)) then None
  else Some (if props_started p then i18n_s "activated" else i18n_s "stopped").

(** The button, when there is one: its text and the argument its [onClick]
    gives to [takeAction]. *)
Definition button (p : Props) : option (string * bool) :=
  if negb (ToBoolean (props_ruleId p)) then None
  else if props_started p then Some (i18n_s "stop", true)
       else Some (i18n_s "activate", false).

(** A click on the button, if it is there. *)
Definition click (resolves : bool) (p : Props) : list Call :=
  match button p with
  | Some (_, isCancel) => takeAction resolves isCancel p
  | None => []
  end.

End StatusTitle.

(** The effect of the drawer on [scaledRules] that sets [started]. *)
Definition started_effect (d : Drawer) (started : bool) : bool :=
  match scaledRules d with
  | Some rules =>
      match head rules with
      | Some rule => String.eqb (isApplied rule) "Y"
      | None => started
      end
  | None => started
  end.

(** The props the drawer gives to the title, but for [toggleStatus]:
    [ruleId] is [scaledRules ? scaledRules?.rules[0]?.ruleId : null]. *)
Definition title_props (StringToNumber : string -> number) (d : Drawer)
           (started : bool) : StatusTitle.Props :=
  StatusTitle.mkProps started
    (ToNumber StringToNumber (JStr (runtimeId d)))
    (match scaledRules d with
     | Some rules =>
         match head rules with
         | Some rule => JStr (ruleId rule)
         | None => JUndefined
         end
     | None => JNull
     end).

(** [started] after the calls of one render: [toggleStatus] is
    [() => setStarted(!started)], with the [started] of that render. *)
Definition started_after (calls : list StatusTitle.Call) (started : bool) : bool :=
  fold_left (fun current call =>
               match call with
               | StatusTitle.toggleStatus => negb started
               | _ => current
               end) calls started.

(** * Properties *)

(** ** Numbers and strings *)

Lemma Qlt_bool_iff (p q : Q) : Qlt_bool p q = true <-> (p < q)%Q.
Proof.
  unfold Qlt_bool. rewrite negb_true_iff. split.
  - intros H. apply Qnot_le_lt. intros Hle.
    apply Qle_bool_iff in Hle. congruence.
  - intros H. destruct (Qle_bool q p) eqn:E; [|reflexivity].
    apply Qle_bool_iff in E. exfalso. exact (Qlt_not_le _ _ H E).
Qed.



Lemma normalized_idempotent (v : jsval) :
  Effects.normalized (Effects.normalized v) = Effects.normalized v.
Proof. destruct v; reflexivity. Qed.

(** ** Lookups after the operations on fields *)

Lemma lookup_setDisplay (d : Display) (a a' : list segment) (fields : Fields) :
  setDisplay d a fields !! a' =
  if decide (a = a') then with_display d <$> fields !! a' else fields !! a'.
Proof.
  unfold setDisplay. case_decide as E.
  - subst. apply lookup_alter_eq.
  - by apply lookup_alter_ne.
Qed.

Lemma lookup_setValue (v : jsval) (a a' : list segment) (fields : Fields) :
  setValue v a fields !! a' =
  if decide (a = a') then with_value v <$> fields !! a' else fields !! a'.
Proof.
  unfold setValue. case_decide as E.
  - subst. apply lookup_alter_eq.
  - by apply lookup_alter_ne.
Qed.

Lemma setValue_if_field_alter (v : jsval) (a : list segment) (fields : Fields) :
  setValue_if_field v a fields =
  alter (fun f => if isField f then with_value v f else f) a fields.
Proof.
  unfold setValue_if_field, take_field, setValue.
  destruct (fields !! a) as [f|] eqn:E.
  - destruct (isField f) eqn:Ef.
    + apply map_eq. intros a'. destruct (decide (a = a')) as [<-|Hne].
      * rewrite !lookup_alter_eq, E. simpl. by rewrite Ef.
      * by rewrite !lookup_alter_ne.
    + symmetry. apply alter_id. intros x Hx. rewrite E in Hx.
      injection Hx as <-. by rewrite Ef.
  - symmetry. by apply alter_id'.
Qed.

Lemma lookup_setValue_if_field (v : jsval) (a a' : list segment) (fields : Fields) :
  setValue_if_field v a fields !! a' =
  if decide (a = a')
  then (fun f => if isField f then with_value v f else f) <$> fields !! a'
  else fields !! a'.
Proof.
  rewrite setValue_if_field_alter. case_decide as E.
  - subst. apply lookup_alter_eq.
  - by apply lookup_alter_ne.
Qed.

Lemma metadata_field_inj (address : list segment) (k1 k2 : string) :
  metadata_field address k1 = metadata_field address k2 -> k1 = k2.
Proof.
  unfold metadata_field, concat. simpl. intros H.
  apply app_inv_head in H. congruence.
Qed.

Lemma length_pop (a : list segment) : length (pop a) = Nat.pred (length a).
Proof.
  unfold pop. induction a as [|x [|y a] IH]; try reflexivity.
  change (removelast (x :: y :: a)) with (x :: removelast (y :: a)).
  simpl length in *. rewrite IH. reflexivity.
Qed.

Lemma metadata_field_ne_self (address : list segment) (k : string) : metadata_field address k <> address.
Proof.
  intros H. apply (f_equal length) in H.
  unfold metadata_field, Effects.metadataPath, concat in H.
  rewrite !length_app, length_pop in H. simpl in H. lia.
Qed.

Lemma path_matches_last (pat : list pattern_segment) (s : segment) (a : list segment) :
  path_matches (pat ++ [Lit s]) a = true -> last a = Some s.
Proof.
  revert a. induction pat as [|p pat IH]; intros a H.
  - destruct a as [|x a]; simpl in H; [discriminate|].
    apply andb_true_iff in H as [H1 H2].
    destruct a; [|discriminate].
    apply bool_decide_eq_true in H1. by subst.
  - destruct a as [|x a]; simpl in H; [discriminate|].
    apply andb_true_iff in H as [_ H]. apply IH in H.
    destruct a; [discriminate|]. exact H.
Qed.

(** ** The reaction to the type of a trigger *)

(** Looks a field up after a run of [setDisplay] / [setValue] on metadata
    fields, comparing the addresses by their last key. *)
Ltac lookup_step :=
  first [ rewrite lookup_setDisplay
        | rewrite lookup_setValue_if_field
        | rewrite lookup_setValue ];
  let Hd := fresh "Hd" in
  match goal with
  | |- context [decide (?a = ?b)] => destruct (decide (a = b)) as [Hd|Hd]
  end;
  [ try (apply metadata_field_inj in Hd; discriminate Hd);
    try (exfalso; symmetry in Hd; exact (metadata_field_ne_self _ _ Hd));
    try (exfalso; exact (metadata_field_ne_self _ _ Hd))
  | try (exfalso; apply Hd; reflexivity) ].

Ltac lookup_metadata := repeat lookup_step.

Lemma isField_with_display (d : Display) (f : Field) :
  isField (with_display d f) = isField f.
Proof. reflexivity. Qed.

Lemma onTypeReact_lookup_self (address : list segment) (fields : Fields) :
  Effects.onTypeReact address fields !! address = fields !! address.
Proof.
  unfold Effects.onTypeReact, take_field.
  destruct (fields !! address) as [f|] eqn:E; [|exact E].
  destruct (isField f); [|exact E].
  fold (metadata_field address "value") (metadata_field address "start")
       (metadata_field address "end") (metadata_field address "desiredReplicas")
       (metadata_field address "type") (metadata_field address "timezone").
  destruct (negb (ToBoolean (field_value f)));
    [|destruct (negb (strict_equal_string (field_value f) "cron"))];
    lookup_metadata; exact E.
Qed.

Lemma onTypeReact_unset (address : list segment) (fields : Fields) (f : Field) :
  fields !! address = Some f -> isField f = true ->
  ToBoolean (field_value f) = false ->
  Effects.onTypeReact address fields =
  setDisplay display_none (metadata_field address "desiredReplicas")
    (setDisplay display_none (metadata_field address "end")
       (setDisplay display_none (metadata_field address "start")
          (setDisplay display_none (metadata_field address "value") fields))).
Proof.
  intros E Hf Hv. unfold Effects.onTypeReact, take_field.
  rewrite E, Hf, Hv. reflexivity.
Qed.

Lemma onTypeReact_utilization (address : list segment) (fields : Fields) (f : Field) :
  fields !! address = Some f -> isField f = true ->
  ToBoolean (field_value f) = true ->
  strict_equal_string (field_value f) "cron" = false ->
  metadata_mounted address fields ->
  let fields' := Effects.onTypeReact address fields in
  display_of (metadata_field address "value") fields' = Some display_visible
  /\ display_of (metadata_field address "start") fields' = Some display_none
  /\ display_of (metadata_field address "end") fields' = Some display_none
  /\ display_of (metadata_field address "desiredReplicas") fields' = Some display_none
  /\ display_of (metadata_field address "type") fields' = Some display_hidden
  /\ value_of (metadata_field address "type") fields' = Some (JStr "Utilization")
  /\ display_of (metadata_field address "timezone") fields' = Some display_none.
Proof.
  intros E Hf Hv Hc Hm fields'. subst fields'.
  unfold Effects.onTypeReact, take_field. rewrite E, Hf, Hv, Hc. simpl negb. cbv iota.
  fold (metadata_field address "value") (metadata_field address "start")
       (metadata_field address "end") (metadata_field address "desiredReplicas")
       (metadata_field address "type") (metadata_field address "timezone").
  unfold display_of, value_of.
  repeat split; lookup_metadata.
  all: match goal with
       | Hm : metadata_mounted ?a ?F |- context [?F !! metadata_field ?a ?k] =>
           let g := fresh "g" in let Hg := fresh "Hg" in
           destruct (Hm k) as (g & -> & Hg); [simpl; tauto|];
           simpl; rewrite ?isField_with_display, ?Hg
       end.
  all: reflexivity.
Qed.

Lemma onTypeReact_cron (address : list segment) (fields : Fields) (f : Field) :
  fields !! address = Some f -> isField f = true ->
  field_value f = JStr "cron" ->
  metadata_mounted address fields ->
  let fields' := Effects.onTypeReact address fields in
  display_of (metadata_field address "value") fields' = Some display_none
  /\ display_of (metadata_field address "start") fields' = Some display_visible
  /\ display_of (metadata_field address "end") fields' = Some display_visible
  /\ display_of (metadata_field address "desiredReplicas") fields' = Some display_visible
  /\ display_of (metadata_field address "type") fields' = Some display_none
  /\ display_of (metadata_field address "timezone") fields' = Some display_hidden
  /\ value_of (metadata_field address "timezone") fields' = Some (JStr "Asia/Shanghai").
Proof.
  intros E Hf Hv Hm fields'. subst fields'.
  unfold Effects.onTypeReact, take_field. rewrite E, Hf, Hv. simpl negb. cbv iota.
  fold (metadata_field address "value") (metadata_field address "start")
       (metadata_field address "end") (metadata_field address "desiredReplicas")
       (metadata_field address "type") (metadata_field address "timezone").
  unfold display_of, value_of.
  repeat split; lookup_metadata.
  all: match goal with
       | Hm : metadata_mounted ?a ?F |- context [?F !! metadata_field ?a ?k] =>
           let g := fresh "g" in let Hg := fresh "Hg" in
           destruct (Hm k) as (g & -> & Hg); [simpl; tauto|];
           simpl; rewrite ?isField_with_display, ?Hg
       end.
  all: reflexivity.
Qed.

(** A change of the type field of a trigger runs the reaction to the type
    and no other effect. *)
Lemma change_value_type_field (i : nat) (address : list segment) (f : Field)
      (v : jsval) (fields : Fields) :
  fields !! address = Some f -> trigger_type_field i address f ->
  Effects.change_value address v fields =
  Effects.onTypeReact address (setValue v address fields).
Proof.
  intros E (Hf & Hp & Hl).
  assert (Hnot : forall k : string, k <> "type" ->
            Effects.effect_applies
              (Effects.onFieldValueChange [Lit (Key "triggers"); Any; Any; Lit (Key k)]
                                          Effects.onNumericValueChange)
              address (with_value v f) = false).
  { intros k Hk. unfold Effects.effect_applies. simpl Effects.effect_pattern.
    apply orb_false_iff. split.
    - destruct (path_matches _ address) eqn:Hm; [|reflexivity].
      apply (path_matches_last [Lit (Key "triggers"); Any; Any]) in Hm. congruence.
    - simpl field_path. rewrite Hp. reflexivity. }
  unfold Effects.change_value, Effects.effects. simpl fold_left.
  set (F := setValue v address fields).
  assert (EF : F !! address = Some (with_value v f)).
  { subst F. rewrite lookup_setValue. case_decide; [|done]. by rewrite E. }
  assert (R1 : Effects.run_effect address F
                 (Effects.onFieldReact Effects.type_pattern Effects.onTypeReact)
               = Effects.onTypeReact address F).
  { unfold Effects.run_effect, take_field. rewrite EF.
    unfold Effects.effect_applies. simpl field_path. rewrite Hp.
    simpl. by rewrite orb_true_r. }
  rewrite R1.
  unfold Effects.run_effect at 2. unfold take_field.
  rewrite onTypeReact_lookup_self, EF.
  unfold Effects.value_pattern.
  rewrite (Hnot "value") by discriminate.
  unfold Effects.run_effect, take_field.
  rewrite onTypeReact_lookup_self, EF.
  unfold Effects.desiredReplicas_pattern.
  rewrite (Hnot "desiredReplicas") by discriminate.
  reflexivity.
Qed.

Lemma metadata_mounted_setValue (address : list segment) (v : jsval) (fields : Fields) :
  metadata_mounted address fields ->
  metadata_mounted address (setValue v address fields).
Proof.
  intros Hm name Hn. destruct (Hm name Hn) as (g & Hg & Hd).
  exists g. split; [|exact Hd].
  rewrite lookup_setValue. case_decide as Hd'; [|exact Hg].
  exfalso. symmetry in Hd'. exact (metadata_field_ne_self _ _ Hd').
Qed.

Lemma value_of_setDisplay (d : Display) (a a' : list segment) (fields : Fields) :
  value_of a' (setDisplay d a fields) = value_of a' fields.
Proof.
  unfold value_of. rewrite lookup_setDisplay. case_decide; [|reflexivity].
  destruct (fields !! a'); reflexivity.
Qed.

(** C1. When the type field of the trigger at index [i] changes to a
    non-empty value, the controller sets the fields of its metadata as the
    table says.  For ['cpu'] or ['memory']: [value] visible, [start], [end]
    and [desiredReplicas] display none, the subtype marker hidden with value
    ['Utilization'], [timezone] display none.  For ['cron']: [value] display
    none, [start], [end] and [desiredReplicas] visible, the subtype marker
    display none, [timezone] hidden with value ['Asia/Shanghai']. *)
Theorem type_change_sets_metadata_fields
        (i : nat) (address : list segment) (f : Field) (v : jsval) (fields : Fields) :
  fields !! address = Some f ->
  trigger_type_field i address f ->
  metadata_mounted address fields ->
  let fields' := Effects.change_value address v fields in
  (v = JStr "cpu" \/ v = JStr "memory" ->
     display_of (metadata_field address "value") fields' = Some display_visible
     /\ display_of (metadata_field address "start") fields' = Some display_none
     /\ display_of (metadata_field address "end") fields' = Some display_none
     /\ display_of (metadata_field address "desiredReplicas") fields' = Some display_none
     /\ display_of (metadata_field address "type") fields' = Some display_hidden
     /\ value_of (metadata_field address "type") fields' = Some (JStr "Utilization")
     /\ display_of (metadata_field address "timezone") fields' = Some display_none)
  /\ (v = JStr "cron" ->
     display_of (metadata_field address "value") fields' = Some display_none
     /\ display_of (metadata_field address "start") fields' = Some display_visible
     /\ display_of (metadata_field address "end") fields' = Some display_visible
     /\ display_of (metadata_field address "desiredReplicas") fields' = Some display_visible
     /\ display_of (metadata_field address "type") fields' = Some display_none
     /\ display_of (metadata_field address "timezone") fields' = Some display_hidden
     /\ value_of (metadata_field address "timezone") fields' = Some (JStr "Asia/Shanghai")).
Proof.
  intros E Ht Hm fields'. subst fields'.
  rewrite (change_value_type_field i address f v fields E Ht).
  assert (EF : setValue v address fields !! address = Some (with_value v f)).
  { rewrite lookup_setValue. case_decide; [|done]. by rewrite E. }
  destruct Ht as (Hf & _ & _).
  apply (metadata_mounted_setValue address v) in Hm.
  split.
  - intros Hv.
    apply (onTypeReact_utilization address _ (with_value v f) EF Hf);
      [ | | exact Hm]; destruct Hv as [-> | ->]; reflexivity.
  - intros ->.
    apply (onTypeReact_cron address _ (with_value (JStr "cron") f) EF Hf);
      [reflexivity | exact Hm].
Qed.

(** C2. When the type field of the trigger at index [i] changes to an empty
    value, the controller gives display none to [value], [start], [end] and
    [desiredReplicas], and to these four only; the value stored in every
    other field is what it was, and the type field holds the new value. *)
Theorem type_unset_hides_and_keeps_values
        (i : nat) (address : list segment) (f : Field) (v : jsval) (fields : Fields) :
  fields !! address = Some f ->
  trigger_type_field i address f ->
  metadata_mounted address fields ->
  ToBoolean v = false ->
  let fields' := Effects.change_value address v fields in
  let hidden := ["value"; "start"; "end"; "desiredReplicas"] in
  (forall name, In name hidden ->
     display_of (metadata_field address name) fields' = Some display_none)
  /\ (forall a, a <> address -> value_of a fields' = value_of a fields)
  /\ value_of address fields' = Some v
  /\ (forall a, a <> address ->
        (forall name, In name hidden -> a <> metadata_field address name) ->
        fields' !! a = fields !! a).
Proof.
  intros E Ht Hm Hv fields' hidden. subst fields' hidden.
  rewrite (change_value_type_field i address f v fields E Ht).
  assert (EF : setValue v address fields !! address = Some (with_value v f)).
  { rewrite lookup_setValue. case_decide; [|done]. by rewrite E. }
  destruct Ht as (Hf & _ & _).
  rewrite (onTypeReact_unset address _ (with_value v f) EF Hf Hv).
  apply (metadata_mounted_setValue address v) in Hm.
  set (F := setValue v address fields) in *.
  repeat split; [clearbody F | subst F ..].
  - intros name Hn. unfold display_of.
    destruct (Hm name) as (g & Hg & _).
    { simpl in Hn. simpl. tauto. }
    simpl in Hn.
    destruct Hn as [<-|[<-|[<-|[<-|[]]]]]; lookup_metadata; rewrite Hg; reflexivity.
  - intros a Ha. rewrite !value_of_setDisplay. unfold value_of.
    rewrite lookup_setValue. case_decide; [congruence|reflexivity].
  - rewrite !value_of_setDisplay. unfold value_of. by rewrite EF.
  - intros a Ha Hn.
    rewrite !lookup_setDisplay, lookup_setValue.
    repeat (case_decide; [subst a; exfalso; eapply Hn; [|reflexivity]; simpl; tauto|]).
    case_decide; [congruence|reflexivity].
Qed.

(** ** The numeric fields *)

Lemma effect_applies_with_value (e : Effects.Effect) (a : list segment)
      (v : jsval) (g : Field) :
  Effects.effect_applies e a (with_value v g) = Effects.effect_applies e a g.
Proof. reflexivity. Qed.

Lemma run_effect_type_lookup (address : list segment) (fields : Fields) :
  Effects.run_effect address fields
    (Effects.onFieldReact Effects.type_pattern Effects.onTypeReact) !! address
  = fields !! address.
Proof.
  unfold Effects.run_effect, take_field.
  destruct (fields !! address) as [g|] eqn:E; [|exact E].
  destruct (Effects.effect_applies _ _ _); [|exact E].
  simpl. rewrite onTypeReact_lookup_self. exact E.
Qed.

Lemma run_effect_numeric_lookup (pat : list pattern_segment)
      (address : list segment) (fields : Fields) (g : Field) :
  fields !! address = Some g ->
  let e := Effects.onFieldValueChange pat Effects.onNumericValueChange in
  Effects.run_effect address fields e !! address
  = Some (if Effects.effect_applies e address g
          then with_value (Effects.normalized (field_value g)) g else g).
Proof.
  intros E e. unfold Effects.run_effect, take_field. rewrite E.
  destruct (Effects.effect_applies e address g); [|exact E].
  simpl. unfold Effects.onNumericValueChange, take_field. rewrite E.
  rewrite lookup_setValue. case_decide; [|done]. by rewrite E.
Qed.

(** The value a numeric field holds after a change to [v]. *)
Lemma change_value_numeric (address : list segment) (f : Field) (v : jsval)
      (fields : Fields) :
  fields !! address = Some f -> numeric_field address f ->
  value_of address (Effects.change_value address v fields)
  = Some (Effects.normalized v).
Proof.
  intros E Hn. unfold Effects.change_value, Effects.effects. simpl fold_left.
  set (F0 := setValue v address fields).
  assert (E0 : F0 !! address = Some (with_value v f)).
  { subst F0. rewrite lookup_setValue. case_decide; [|done]. by rewrite E. }
  set (F1 := Effects.run_effect address F0 _).
  assert (E1 : F1 !! address = Some (with_value v f)).
  { subst F1. by rewrite run_effect_type_lookup. }
  set (F2 := Effects.run_effect address F1 _).
  pose proof (run_effect_numeric_lookup Effects.value_pattern address F1 _ E1) as E2.
  fold F2 in E2. cbv zeta in E2.
  pose proof (run_effect_numeric_lookup Effects.desiredReplicas_pattern address F2 _ E2)
    as E3.
  cbv zeta in E3. unfold value_of. rewrite E3. clear E3 E2 E1 E0.
  unfold numeric_field in Hn.
  set (b3 := Effects.effect_applies
               (Effects.onFieldValueChange Effects.desiredReplicas_pattern _)
               address f) in *.
  destruct (Effects.effect_applies
              (Effects.onFieldValueChange Effects.value_pattern _)
              address (with_value v f)) eqn:A2.
  - change (Some (field_value
                    (if b3 then with_value (Effects.normalized (Effects.normalized v))
                                  (with_value (Effects.normalized v) (with_value v f))
                     else with_value (Effects.normalized v) (with_value v f)))
            = Some (Effects.normalized v)).
    destruct b3; simpl; by rewrite ?normalized_idempotent.
  - change (Some (field_value
                    (if b3 then with_value (Effects.normalized v) (with_value v f)
                     else with_value v f))
            = Some (Effects.normalized v)).
    rewrite effect_applies_with_value in A2.
    destruct Hn as [Hn|Hn]; [congruence|]. by rewrite Hn.
Qed.


(** ** The type options of the modal *)

Section TypeOptions.
Import TriggersConfig.

Lemma strict_equal_string_iff (v : jsval) (t : string) :
  strict_equal_string v t = true <-> v = JStr t.
Proof.
  destruct v; simpl; try (split; [discriminate | intros H; discriminate H]).
  split.
  - intros H. apply String.eqb_eq in H. by subst.
  - intros H. injection H as ->. apply String.eqb_refl.
Qed.

Lemma option_value_nonempty (o : TypeOption) :
  In o typeOptions -> ToBoolean (JStr (option_value o)) = true.
Proof. intros [<-|[<-|[<-|[]]]]; reflexivity. Qed.

Lemma currentTypes_filter (items : list Trigger) :
  currentTypes items = List.filter ToBoolean (List.map trigger_type items).
Proof.
  unfold currentTypes.
  enough (H : forall acc,
             fold_left (fun acc item =>
                          if ToBoolean (trigger_type item)
                          then push acc (trigger_type item) else acc) items acc
             = acc ++ List.filter ToBoolean (List.map trigger_type items))
    by apply (H []).
  induction items as [|item items IH]; intros acc; simpl.
  - by rewrite app_nil_r.
  - rewrite IH. destruct (ToBoolean (trigger_type item)); [|reflexivity].
    unfold push. by rewrite <- app_assoc.
Qed.

Lemma in_currentTypes (items : list Trigger) (t : jsval) :
  In t (currentTypes items) <->
  ToBoolean t = true /\ exists item, In item items /\ trigger_type item = t.
Proof.
  rewrite currentTypes_filter, filter_In, in_map_iff. split.
  - intros [(item & <- & Hi) Ht]. eauto.
  - intros [Ht (item & Hi & <-)]. eauto.
Qed.

(** [currentTypes.includes(t)] says that some item holds the type [t]. *)
Lemma includes_currentTypes (items : list Trigger) (t : string) :
  ToBoolean (JStr t) = true ->
  includes (currentTypes items) t = true <->
  exists item, In item items /\ trigger_type item = JStr t.
Proof.
  intros Ht. unfold includes. rewrite existsb_exists. split.
  - intros (x & Hx & Heq). apply strict_equal_string_iff in Heq. subst x.
    apply in_currentTypes in Hx as [_ Hx]. exact Hx.
  - intros (item & Hi & Heq). exists (JStr t). split.
    + apply in_currentTypes. eauto.
    + by apply strict_equal_string_iff.
Qed.

Lemma currentTypeField_Some (items : list Trigger) (i : nat) (item : Trigger) :
  items !! i = Some item ->
  exists field, currentTypeField items (Z.of_nat i) = Some field
                /\ isField field = true
                /\ field_value field = trigger_type item.
Proof.
  intros H. unfold currentTypeField.
  destruct (Z.ltb_spec (Z.of_nat i) 0) as [?|_]; [lia|].
  rewrite Nat2Z.id, H. simpl. eauto.
Qed.

Lemma currentTypeField_inv (items : list Trigger) (index : Z) (field : Field) :
  currentTypeField items index = Some field ->
  exists item, 0 <= index /\ items !! Z.to_nat index = Some item
               /\ isField field = true /\ field_value field = trigger_type item.
Proof.
  unfold currentTypeField.
  destruct (Z.ltb_spec index 0) as [?|Hi]; [discriminate|].
  destruct (items !! Z.to_nat index) as [item|]; [|discriminate].
  simpl. intros H. injection H as <-. exists item. auto.
Qed.

(** The options the effect computes, by membership. *)
Lemma in_filtered_options (items : list Trigger) (index : Z) (field : Field)
      (o : TypeOption) :
  currentTypeField items index = Some field ->
  forall opts, filtered_options items index = Some opts ->
  In o opts <->
  In o typeOptions
  /\ ((forall other, In other items -> trigger_type other <> JStr (option_value o))
      \/ field_value field = JStr (option_value o)).
Proof.
  intros Hf opts. unfold filtered_options. rewrite Hf. intros H.
  apply (inj Some) in H. subst opts.
  apply currentTypeField_inv in Hf as (item & _ & _ & Hd & _).
  rewrite filter_In, Hd, orb_true_iff, negb_true_iff. simpl andb.
  rewrite strict_equal_string_iff.
  split; intros [Ho Hc]; (split; [exact Ho|]).
  - destruct Hc as [Hc|Hc]; [left|by right].
    intros other Hin Heq.
    assert (Hinc : includes (currentTypes items) (option_value o) = true).
    { apply includes_currentTypes; [by apply option_value_nonempty|]. eauto. }
    congruence.
  - destruct Hc as [Hc|Hc]; [left|by right].
    destruct (includes (currentTypes items) (option_value o)) eqn:Hinc; [|reflexivity].
    apply includes_currentTypes in Hinc as (other & Hin & Heq);
      [|by apply option_value_nonempty].
    exfalso. exact (Hc other Hin Heq).
Qed.

End TypeOptions.

(** C3. The type options offered to the trigger at index [i] are the types
    among ['cpu'], ['memory'] and ['cron'] that no trigger of the list holds,
    plus the type the trigger at [i] holds itself; for the list
    [[{type:'cpu'},{type:'memory'}]] a third trigger just added is offered
    ['cron'] and nothing else. *)
Theorem offered_options_are_free_or_own
        (items : list Trigger) (i : nat) (item : Trigger) :
  items !! i = Some item ->
  (exists opts,
      TriggersConfig.filtered_options items (Z.of_nat i) = Some opts
      /\ forall o, In o opts <->
           In o typeOptions
           /\ ((forall other, In other items ->
                  trigger_type other <> JStr (option_value o))
               \/ trigger_type item = JStr (option_value o)))
  /\ (forall cpu_metadata memory_metadata,
        TriggersConfig.options
          <$> TriggersConfig.options_effect
                (TriggersConfig.onAddRule
                   (TriggersConfig.initial
                      [mkTrigger (JStr "cpu") cpu_metadata;
                       mkTrigger (JStr "memory") memory_metadata]))
        = Some [mkTypeOption "cron" "Cron"]).
Proof.
  intros Hi. split; [|reflexivity].
  destruct (currentTypeField_Some items i item Hi) as (field & Hf & _ & Hv).
  destruct (TriggersConfig.filtered_options items (Z.of_nat i)) as [opts|] eqn:E.
  - exists opts. split; [reflexivity|]. intros o.
    rewrite <- Hv. by apply (in_filtered_options items (Z.of_nat i) field).
  - unfold TriggersConfig.filtered_options in E. rewrite Hf in E. discriminate.
Qed.

(** ** The items while the user adds, edits and cancels *)

Section Protocol.
Import TriggersConfig.

Lemma splice1_delete {A} (index : Z) (l : list A) :
  exists n, splice1 index l = delete n l.
Proof. eexists. unfold splice1. symmetry. apply delete_take_drop. Qed.

Lemma in_delete {A} (n : nat) (l : list A) (x : A) : In x (delete n l) -> In x l.
Proof.
  rewrite <- !list_elem_of_In. apply list_elem_of_delete_inv.
Qed.

Lemma well_formed_delete (n : nat) (items : list Trigger) :
  well_formed items -> well_formed (delete n items).
Proof.
  intros [Hk Hd]. split.
  - intros item Hi. apply Hk. eapply in_delete, Hi.
  - intros i j a b Hi Hj Ha Hab.
    rewrite list_lookup_delete in Hi, Hj.
    destruct (decide (i < n)%nat), (decide (j < n)%nat);
      pose proof (Hd _ _ _ _ Hi Hj Ha Hab); lia.
Qed.

Lemma well_formed_splice1 (index : Z) (items : list Trigger) :
  well_formed items -> well_formed (splice1 index items).
Proof.
  destruct (splice1_delete index items) as [n ->]. apply well_formed_delete.
Qed.

Lemma well_formed_push_empty (items : list Trigger) :
  well_formed items -> well_formed (push items empty_object).
Proof.
  intros [Hk Hd]. unfold push. split.
  - intros item Hi Ht. apply in_app_or in Hi as [Hi|[<-|[]]]; [by apply Hk|].
    discriminate Ht.
  - intros i j a b Hi Hj Ha Hab.
    apply lookup_app_Some in Hi as [Hi|[Hl Hi]].
    + apply lookup_app_Some in Hj as [Hj|[Hl Hj]]; [by eapply Hd|].
      apply list_lookup_singleton_Some in Hj as [_ <-].
      rewrite Hab in Ha. discriminate Ha.
    + apply list_lookup_singleton_Some in Hi as [_ <-]. discriminate Ha.
Qed.

(** Replacing an item by one of the same type. *)
Lemma well_formed_insert_same (items : list Trigger) (n : nat) (old new : Trigger) :
  items !! n = Some old -> trigger_type new = trigger_type old ->
  well_formed items -> well_formed (<[n := new]> items).
Proof.
  intros Hn Ht [Hk Hd].
  assert (Hty : forall i a, <[n := new]> items !! i = Some a ->
                  exists a', items !! i = Some a' /\ trigger_type a = trigger_type a').
  { intros i a Hi. destruct (decide (n = i)) as [<-|Hne].
    - rewrite list_lookup_insert_eq in Hi by (by eapply lookup_lt_Some).
      injection Hi as <-. eauto.
    - rewrite list_lookup_insert_ne in Hi by done. eauto. }
  split.
  - intros item Hi Htrue.
    apply list_elem_of_In, list_elem_of_lookup in Hi as [i Hi].
    apply Hty in Hi as (a' & Hi & Heq). rewrite Heq in *.
    apply Hk; [|done]. apply list_elem_of_In, list_elem_of_lookup. eauto.
  - intros i j a b Hi Hj Ha Hab.
    apply Hty in Hi as (a' & Hi & Hea). apply Hty in Hj as (b' & Hj & Heb).
    rewrite Hea in Ha. rewrite Hea, Heb in Hab. by eapply Hd.
Qed.

(** Giving an item a type that no other item holds. *)
Lemma well_formed_insert_free (items : list Trigger) (n : nat) (o : TypeOption)
      (metadata : jsval) :
  In o typeOptions ->
  (forall j b, items !! j = Some b -> j <> n ->
               trigger_type b <> JStr (option_value o)) ->
  well_formed items ->
  well_formed (<[n := mkTrigger (JStr (option_value o)) metadata]> items).
Proof.
  intros Ho Hfree [Hk Hd].
  set (new := mkTrigger (JStr (option_value o)) metadata).
  assert (Hlk : forall i a, <[n := new]> items !! i = Some a ->
                  (i = n /\ a = new) \/ (i <> n /\ items !! i = Some a)).
  { intros i a Hi. destruct (decide (n = i)) as [<-|Hne].
    - left. apply list_lookup_insert_Some in Hi as [(_ & -> & _)|[? _]]; done.
    - right. rewrite list_lookup_insert_ne in Hi by done. auto. }
  split.
  - intros item Hi Htrue.
    apply list_elem_of_In, list_elem_of_lookup in Hi as [i Hi].
    apply Hlk in Hi as [[_ ->]|[_ Hi]]; [by exists o|].
    apply Hk; [|done]. apply list_elem_of_In, list_elem_of_lookup. eauto.
  - intros i j a b Hi Hj Ha Hab.
    apply Hlk in Hi as [[-> ->]|[Hin Hi]]; apply Hlk in Hj as [[-> ->]|[Hjn Hj]].
    + reflexivity.
    + exfalso. apply (Hfree j b Hj Hjn). by rewrite <- Hab.
    + exfalso. by apply (Hfree i a Hi Hin).
    + by eapply Hd.
Qed.

(** The options the effect computes exclude the types of the other items. *)
Lemma filtered_options_sound (items : list Trigger) (index : Z) (opts : list TypeOption) :
  well_formed items ->
  filtered_options items index = Some opts ->
  options_sound items index opts.
Proof.
  intros [Hk Hd] Hopts o Ho.
  destruct (currentTypeField items index) as [field|] eqn:Hf;
    [|unfold filtered_options in Hopts; rewrite Hf in Hopts; discriminate].
  pose proof (in_filtered_options items index field o Hf opts Hopts) as Hiff.
  apply Hiff in Ho. clear Hiff. destruct Ho as [Hin Hc].
  split; [exact Hin|].
  intros j b Hj Hne Hb.
  destruct Hc as [Hc|Hc].
  - apply (Hc b); [|exact Hb]. apply list_elem_of_In, list_elem_of_lookup. eauto.
  - apply currentTypeField_inv in Hf as (item & H0 & Hi & _ & Hv).
    rewrite Hv in Hc.
    assert (Z.to_nat index = j); [|lia].
    apply (Hd _ _ item b Hi Hj).
    + rewrite Hc. by apply option_value_nonempty.
    + congruence.
Qed.

Lemma options_sound_insert (items : list Trigger) (index : Z) (new : Trigger)
      (opts : list TypeOption) :
  0 <= index ->
  options_sound items index opts ->
  options_sound (<[Z.to_nat index := new]> items) index opts.
Proof.
  intros H0 Hs o Ho. destruct (Hs o Ho) as [Hin Hfree]. split; [exact Hin|].
  intros j b Hj Hne. rewrite list_lookup_insert_ne in Hj by lia. by eapply Hfree.
Qed.

Lemma options_effect_inv (s s' : State) :
  options_effect s = Some s' ->
  (visible s = false /\ s' = s)
  \/ (visible s = true
      /\ exists opts, filtered_options (value s) (currentIndex s) = Some opts
                      /\ s' = mkState (value s) (visible s) (previousValue s)
                                      (isEditing s) (currentIndex s) opts).
Proof.
  unfold options_effect. destruct (visible s).
  - destruct (filtered_options _ _) as [opts|]; [|discriminate].
    intros H. injection H as <-. right. eauto.
  - intros H. injection H as <-. by left.
Qed.

Lemma invariant_initial (items : list Trigger) :
  well_formed items -> invariant (initial items).
Proof. intros H. split; [exact H|]. split; intros Hv; discriminate Hv. Qed.

Lemma invariant_step (s s' : State) : invariant s -> step s s' -> invariant s'.
Proof.
  intros (Hwf & Hprev & Hopts) Hstep.
  destruct Hstep as [s s' Hv Hb He | s s' row Hv Hr He | s row Hv Hr
                    | s o item metadata Hv Ho H0 Hi | s item metadata Hv H0 Hi
                    | s Hv | s Hv | s s' He].
  - apply options_effect_inv in He as [[He _]|(_ & opts & He & ->)]; [discriminate|].
    simpl in He. split; [|split]; simpl.
    + by apply well_formed_push_empty.
    + intros _ Hed. discriminate Hed.
    + intros _. eapply filtered_options_sound; [|exact He].
      by apply well_formed_push_empty.
  - apply options_effect_inv in He as [[He _]|(_ & opts & He & ->)]; [discriminate|].
    simpl in He. split; [exact Hwf|]. split; simpl.
    + intros _ _. eauto.
    + intros _. by eapply filtered_options_sound.
  - unfold delete_onClick. split; simpl; [by apply well_formed_splice1|].
    split; intros Hv'; congruence.
  - unfold input. destruct (Z.ltb_spec (currentIndex s) 0) as [?|_]; [lia|].
    specialize (Hopts Hv). destruct (Hopts o Ho) as [Hin Hfree].
    split; simpl; [|split].
    + apply well_formed_insert_free; [done| |done].
      intros j b Hj Hne. apply (Hfree j b Hj). lia.
    + exact Hprev.
    + intros _. by apply options_sound_insert.
  - unfold input. destruct (Z.ltb_spec (currentIndex s) 0) as [?|_]; [lia|].
    split; simpl; [|split].
    + by eapply well_formed_insert_same.
    + exact Hprev.
    + intros _. apply options_sound_insert; auto.
  - unfold onOk. split; simpl; [done|]. split; discriminate.
  - unfold onClose. destruct (isEditing s) eqn:Hed; split; simpl.
    + destruct (Hprev Hv eq_refl) as (pv & -> & Hpv). exact Hpv.
    + split; discriminate.
    + by apply well_formed_splice1.
    + split; discriminate.
  - apply options_effect_inv in He as [[_ ->]|(Hv & opts & He & ->)]; [done|].
    split; simpl; [done|]. split; [exact Hprev|].
    intros _. by eapply filtered_options_sound.
Qed.

Lemma invariant_reachable (items : list Trigger) (s : State) :
  well_formed items -> reachable items s -> invariant s.
Proof.
  intros Hwf Hr. induction Hr as [|s s' _ IH Hstep].
  - by apply invariant_initial.
  - by eapply invariant_step.
Qed.

(** *** Counting the items of a type *)

Lemma filter_length_le1 {A} (P : A -> bool) (l : list A) :
  (forall i j a b, l !! i = Some a -> l !! j = Some b ->
                   P a = true -> P b = true -> i = j) ->
  (length (List.filter P l) <= 1)%nat.
Proof.
  induction l as [|x l IH]; intros Hinj; simpl; [lia|].
  destruct (P x) eqn:Hx.
  - assert (Hnil : List.filter P l = []).
    { destruct (List.filter P l) as [|y k] eqn:E; [reflexivity|].
      assert (Hy : In y (List.filter P l)) by (rewrite E; by left).
      apply filter_In in Hy as [Hy HPy].
      apply list_elem_of_In, list_elem_of_lookup in Hy as [j Hj].
      specialize (Hinj 0%nat (S j) x y eq_refl Hj Hx HPy). discriminate. }
    rewrite Hnil. simpl. lia.
  - apply IH. intros i j a b Hi Hj Ha Hb.
    specialize (Hinj (S i) (S j) a b Hi Hj Ha Hb). lia.
Qed.

Lemma filter_length_le1_inj {A} (P : A -> bool) (l : list A) (i j : nat) (a b : A) :
  (length (List.filter P l) <= 1)%nat ->
  l !! i = Some a -> l !! j = Some b -> P a = true -> P b = true -> i = j.
Proof.
  revert i j. induction l as [|x l IH]; intros i j Hlen Hi Hj Ha Hb; [discriminate|].
  assert (Hne : forall k c, l !! k = Some c -> P c = true ->
                            (1 <= length (List.filter P l))%nat).
  { intros k c Hk Hc.
    assert (Hin : In c (List.filter P l)).
    { apply filter_In. split; [|done].
      apply list_elem_of_In, list_elem_of_lookup. eauto. }
    destruct (List.filter P l); [destruct Hin | simpl; lia]. }
  simpl in Hlen. destruct i as [|i], j as [|j]; simpl in Hi, Hj.
  - reflexivity.
  - injection Hi as ->. rewrite Ha in Hlen. simpl in Hlen.
    pose proof (Hne j b Hj Hb). lia.
  - injection Hj as ->. rewrite Hb in Hlen. simpl in Hlen.
    pose proof (Hne i a Hi Ha). lia.
  - f_equal. apply IH; try done. destruct (P x); simpl in Hlen; lia.
Qed.

Lemma distinct_types_one_per_type (items : list Trigger) :
  distinct_types items -> one_per_type items.
Proof.
  intros Hd o Ho. unfold count_type. apply filter_length_le1.
  intros i j a b Hi Hj Ha Hb.
  apply strict_equal_string_iff in Ha, Hb.
  apply (Hd i j a b Hi Hj); [|congruence].
  rewrite Ha. by apply option_value_nonempty.
Qed.

Lemma one_per_type_distinct_types (items : list Trigger) :
  types_known items -> one_per_type items -> distinct_types items.
Proof.
  intros Hk H1 i j a b Hi Hj Ha Hab.
  destruct (Hk a) as (o & Ho & Hao); [|done|].
  { apply list_elem_of_In, list_elem_of_lookup. eauto. }
  apply (filter_length_le1_inj
           (fun item => strict_equal_string (trigger_type item) (option_value o))
           items i j a b (H1 o Ho) Hi Hj); apply strict_equal_string_iff; congruence.
Qed.

(** Under [types_known] the typed items are the items of the three types. *)
Lemma length_currentTypes (items : list Trigger) :
  types_known items ->
  length (currentTypes items)
  = (count_type "cpu" items + count_type "memory" items + count_type "cron" items)%nat.
Proof.
  rewrite currentTypes_filter. unfold count_type.
  induction items as [|item items IH]; intros Hk; [reflexivity|].
  assert (IH' : types_known items).
  { intros x Hx. apply Hk. by right. }
  specialize (IH IH'). simpl.
  destruct (ToBoolean (trigger_type item)) eqn:Ht.
  - destruct (Hk item) as (o & Ho & Heq); [by left|done|].
    rewrite Heq. simpl length. rewrite IH.
    destruct Ho as [<-|[<-|[<-|[]]]]; simpl; lia.
  - assert (Hno : forall t, ToBoolean (JStr t) = true ->
                            strict_equal_string (trigger_type item) t = false).
    { intros t Htt. destruct (strict_equal_string _ t) eqn:E; [|reflexivity].
      apply strict_equal_string_iff in E. congruence. }
    rewrite !Hno by reflexivity. exact IH.
Qed.

End Protocol.

(** C4. In every state the user can reach by adding, editing, deleting,
    confirming and cancelling, where a type can only be picked from the
    options offered and the add action is disabled once three triggers have a
    type, the trigger list has at most one trigger of each type, and at most
    three triggers with a type. *)
Theorem reachable_one_trigger_per_type (items : list Trigger) (s : TriggersConfig.State) :
  TriggersConfig.types_known items ->
  TriggersConfig.one_per_type items ->
  TriggersConfig.reachable items s ->
  TriggersConfig.one_per_type (TriggersConfig.value s)
  /\ (length (TriggersConfig.currentTypes (TriggersConfig.value s)) <= 3)%nat.
Proof.
  intros Hk H1 Hr.
  assert (Hwf : TriggersConfig.well_formed items).
  { split; [exact Hk|]. by apply one_per_type_distinct_types. }
  destruct (invariant_reachable items s Hwf Hr) as ([Hk' Hd'] & _ & _).
  pose proof (distinct_types_one_per_type _ Hd') as H1'.
  split; [exact H1'|].
  rewrite (length_currentTypes _ Hk').
  pose proof (H1' (mkTypeOption "cpu" "CPU")) as Hc.
  pose proof (H1' (mkTypeOption "memory" (i18n_s "memory"))) as Hm.
  pose proof (H1' (mkTypeOption "cron" "Cron")) as Hn.
  simpl in Hc, Hm, Hn.
  specialize (Hc ltac:(tauto)). specialize (Hm ltac:(tauto)). specialize (Hn ltac:(tauto)).
  lia.
Qed.

(** ** Cancelling the modal *)

Section Cancel.
Import TriggersConfig.

Lemma splice1_last {A} (l : list A) (x : A) :
  splice1 (Z.of_nat (length l)) (l ++ [x]) = l.
Proof.
  unfold splice1. rewrite length_app. simpl length.
  destruct (Z.ltb_spec (Z.of_nat (length l)) 0) as [?|_]; [lia|].
  rewrite Z.min_l by lia. rewrite Nat2Z.id.
  rewrite take_app_length. rewrite drop_ge by (rewrite length_app; simpl; lia).
  apply app_nil_r.
Qed.

(** Inputs made after [onAddRule] only touch the item that was pushed. *)
Lemma inputs_after_add (edits : list Trigger) (s : State) (l : list Trigger) (x : Trigger) :
  value s = l ++ [x] -> currentIndex s = Z.of_nat (length l) -> isEditing s = false ->
  exists x', value (inputs edits s) = l ++ [x']
             /\ currentIndex (inputs edits s) = Z.of_nat (length l)
             /\ isEditing (inputs edits s) = false.
Proof.
  revert s x. induction edits as [|e edits IH]; intros s x Hv Hc He; [by eauto|].
  simpl. apply (IH (input e s) e).
  - unfold input. rewrite Hc.
    destruct (Z.ltb_spec (Z.of_nat (length l)) 0) as [?|_]; [lia|].
    simpl. rewrite Hv, Nat2Z.id.
    replace (length l) with (length l + 0)%nat at 1 by lia.
    by rewrite insert_app_r.
  - unfold input. destruct (currentIndex s <? 0); simpl; exact Hc.
  - unfold input. destruct (currentIndex s <? 0); simpl; exact He.
Qed.

(** Inputs keep the snapshot and the editing flag. *)
Lemma inputs_keep_snapshot (edits : list Trigger) (s : State) :
  previousValue (inputs edits s) = previousValue s
  /\ isEditing (inputs edits s) = isEditing s.
Proof.
  revert s. induction edits as [|e edits IH]; intros s; [done|].
  simpl. destruct (IH (input e s)) as [-> ->].
  unfold input. by destruct (currentIndex s <? 0).
Qed.

End Cancel.

(** C8. Cancelling the modal gives the triggers back as they were before the
    interaction: after an add, whatever was entered in the modal, the trigger
    that was appended is removed; after an edit, whatever was entered, the
    value is set back to the snapshot taken when the edit was opened. *)
Theorem cancel_restores_triggers
        (s : TriggersConfig.State) (edits : list Trigger) (row : nat) :
  TriggersConfig.value
    (TriggersConfig.onClose
       (TriggersConfig.inputs edits (TriggersConfig.onAddRule s)))
  = TriggersConfig.value s
  /\ TriggersConfig.value
       (TriggersConfig.onClose
          (TriggersConfig.inputs edits (TriggersConfig.edit_onClick row s)))
     = TriggersConfig.value s.
Proof.
  split.
  - destruct (inputs_after_add edits (TriggersConfig.onAddRule s)
                (TriggersConfig.value s) empty_object) as (x' & Hv & Hc & He).
    + reflexivity.
    + simpl. unfold push. rewrite length_app. simpl. lia.
    + reflexivity.
    + unfold TriggersConfig.onClose. rewrite He. simpl. rewrite Hc, Hv.
      apply splice1_last.
  - destruct (inputs_keep_snapshot edits (TriggersConfig.edit_onClick row s))
      as [Hp He].
    unfold TriggersConfig.onClose. rewrite He. simpl. rewrite Hp. reflexivity.
Qed.

(** ** Submitting *)

Lemma update_calls_messages (errs : list IFormFeedback) :
  update_calls (List.map (fun err => message_error (join ", " (messages err))) errs) = [].
Proof. induction errs as [|err errs IH]; [reflexivity|exact IH]. Qed.

Lemma create_calls_messages (errs : list IFormFeedback) :
  create_calls (List.map (fun err => message_error (join ", " (messages err))) errs) = [].
Proof. induction errs as [|err errs IH]; [reflexivity|exact IH]. Qed.

Section Submit.

Variable StringToNumber : string -> number.

Lemma in_validate (fields : Fields) (err : IFormFeedback) :
  In err (validate StringToNumber fields) <->
  exists address f, fields !! address = Some f
                    /\ validate_field StringToNumber address f = Some err.
Proof.
  unfold validate. rewrite <- list_elem_of_In, list_elem_of_omap. split.
  - intros ([address f] & Hin & Hv). apply elem_of_map_to_list in Hin. eauto.
  - intros (address & f & Hin & Hv). exists (address, f). split; [|exact Hv].
    by apply elem_of_map_to_list.
Qed.

Lemma validate_nil (fields : Fields) :
  (forall address f, fields !! address = Some f ->
                     validate_field StringToNumber address f = None) ->
  validate StringToNumber fields = [].
Proof.
  intros H. destruct (validate StringToNumber fields) as [|err errs] eqn:E; [done|].
  assert (Hin : In err (validate StringToNumber fields)) by (rewrite E; by left).
  apply in_validate in Hin as (address & f & Hf & Hv).
  rewrite (H address f Hf) in Hv. discriminate.
Qed.

(** What [onSubmit] does once validation has passed. *)
Lemma onSubmit_valid (resolves : bool) (d : Drawer) :
  validate StringToNumber (form_fields d) = [] ->
  onSubmit StringToNumber resolves d =
  (let values := mkScaledConfig (maxReplicaCount (form_values d))
                                (minReplicaCount (form_values d))
                                (typed_triggers (triggers (form_values d))) in
   if isEditing d then
     updateScaledRules (ToNumber StringToNumber (JStr (runtimeId d)))
                       (ruleId <$> (scaledRules d ≫= head)) values
                       (i18n_s "update successfully")
   else
     createScaledRules (ToNumber StringToNumber (JStr (runtimeId d)))
                       (serviceName d) values (i18n_s "create successfully"))
  :: (if resolves then [props_onClose] else []).
Proof. intros H. unfold onSubmit. rewrite H. reflexivity. Qed.

(** What [onSubmit] does when validation has failed. *)
Lemma onSubmit_invalid (resolves : bool) (d : Drawer) :
  validate StringToNumber (form_fields d) <> [] ->
  onSubmit StringToNumber resolves d =
  List.map (fun err => message_error (join ", " (messages err)))
           (validate StringToNumber (form_fields d)).
Proof.
  intros H. unfold onSubmit.
  destruct (validate StringToNumber (form_fields d)); [done|reflexivity].
Qed.

Lemma percentage_validator_iff (v : jsval) :
  percentage_validator StringToNumber v = true <->
  exists q, ToNumber StringToNumber v = Finite q /\ (0 < q)%Q /\ (q < 100)%Q.
Proof.
  unfold percentage_validator, number_gt, number_of_Z.
  destruct (ToNumber StringToNumber v) as [|[]|q]; simpl.
  - split; [discriminate|]. intros (q & Hq & _). discriminate.
  - split; [discriminate|]. intros (q & Hq & _). discriminate.
  - split; [discriminate|]. intros (q & Hq & _). discriminate.
  - rewrite andb_true_iff, !Qlt_bool_iff. split.
    + intros [H0 H100]. exists q. auto.
    + intros (q' & Hq & H0 & H100). injection Hq as <-. auto.
Qed.

Lemma path_matches_item_value (p : list segment) :
  path_matches (item_path ["metadata"; "value"]) p = true ->
  exists s, p = [Key "triggers"; s; Key "metadata"; Key "value"].
Proof.
  destruct p as [|s1 [|s2 [|s3 [|s4 [|s5 p]]]]]; simpl; try discriminate;
    rewrite ?andb_false_r; try discriminate.
  rewrite andb_true_r, !andb_true_iff, !bool_decide_eq_true.
  intros (<- & <- & <-). eauto.
Qed.

Lemma rules_of_item_value (s : segment) :
  rules_of StringToNumber [Key "triggers"; s; Key "metadata"; Key "value"]
  = [required_rule default_required_message;
     validator_rule (percentage_validator StringToNumber) percentage_message].
Proof. reflexivity. Qed.

(** The call [onSubmit] makes once validation has passed. *)
Lemma onSubmit_call_valid (resolves : bool) (d : Drawer) :
  validate StringToNumber (form_fields d) = [] ->
  exists call config,
    onSubmit StringToNumber resolves d
    = call :: (if resolves then [props_onClose] else [])
    /\ sent_config call = Some config
    /\ maxReplicaCount config = maxReplicaCount (form_values d)
    /\ minReplicaCount config = minReplicaCount (form_values d).
Proof.
  intros Hv. rewrite (onSubmit_valid resolves d Hv). cbv zeta.
  destruct (isEditing d); eexists _, _; (split; [reflexivity|]); simpl; auto.
Qed.

End Submit.

(** C6. On submit, the triggers that were not given a type are left out of
    what is sent: for every form that passes validation, the configuration
    passed to [createScaledRules] or [updateScaledRules] has, as its triggers,
    exactly the triggers of the form values whose type is truthy, in their
    order; the two counts are sent as they are. *)
Theorem submit_sends_typed_triggers
        (StringToNumber : string -> number) (resolves : bool) (d : Drawer) :
  validate StringToNumber (form_fields d) = [] ->
  exists call config,
    onSubmit StringToNumber resolves d
    = call :: (if resolves then [props_onClose] else [])
    /\ sent_config call = Some config
    /\ triggers config = typed_triggers (triggers (form_values d))
    /\ (forall t, In t (triggers config) <->
                  In t (triggers (form_values d))
                  /\ ToBoolean (trigger_type t) = true)
    /\ maxReplicaCount config = maxReplicaCount (form_values d)
    /\ minReplicaCount config = minReplicaCount (form_values d).
Proof.
  intros Hv. rewrite (onSubmit_valid StringToNumber resolves d Hv). cbv zeta.
  assert (Hin : forall t, In t (typed_triggers (triggers (form_values d))) <->
                          In t (triggers (form_values d))
                          /\ ToBoolean (trigger_type t) = true).
  { intros t. unfold typed_triggers. apply filter_In. }
  destruct (isEditing d); eexists _, _; (split; [reflexivity|]); simpl; auto.
Qed.

(** C7, amended.  After validation has passed, the drawer submits
    by [updateScaledRules], with the [ruleId] of the first fetched rule,
    exactly when the fetched data holds at least one rule; when nothing was
    fetched or the fetched list of rules is empty it submits by
    [createScaledRules] for the service. *)
Theorem submit_updates_iff_rule_fetched
        (StringToNumber : string -> number) (resolves : bool) (d : Drawer) :
  validate StringToNumber (form_fields d) = [] ->
  match scaledRules d with
  | Some (rule :: _) =>
      update_calls (onSubmit StringToNumber resolves d) = [Some (ruleId rule)]
      /\ create_calls (onSubmit StringToNumber resolves d) = []
  | _ =>
      update_calls (onSubmit StringToNumber resolves d) = []
      /\ create_calls (onSubmit StringToNumber resolves d) = [serviceName d]
  end.
Proof.
  intros Hv. rewrite (onSubmit_valid StringToNumber resolves d Hv). cbv zeta.
  unfold isEditing.
  destruct (scaledRules d) as [[|rule rules]|]; destruct resolves; simpl; auto.
Qed.

(** C7 with the condition the specification words it with, a fetched rule
    that has at least one trigger, does not hold: a fetched rule without
    triggers puts the drawer in editing mode all the same. *)
Lemma editing_without_fetched_trigger :
  let d := cpu_drawer (Some [rule_without_triggers]) (JNum 50) (JNum 1) (JNum 3) in
  validate integer_StringToNumber (form_fields d) = []
  /\ update_calls (onSubmit integer_StringToNumber true d) = [Some "rule-1"]
  /\ ~ fetched_rule_has_trigger d
  /\ ~ (update_calls (onSubmit integer_StringToNumber true d) <> []
        <-> fetched_rule_has_trigger d).
Proof.
  intros d.
  assert (Hv : validate integer_StringToNumber (form_fields d) = [])
    by (vm_compute; reflexivity).
  assert (Hu : update_calls (onSubmit integer_StringToNumber true d) = [Some "rule-1"])
    by (vm_compute; reflexivity).
  assert (Hn : ~ fetched_rule_has_trigger d).
  { intros (rules & r & Hr & Hin & Ht). simpl in Hr. injection Hr as <-.
    destruct Hin as [<-|[]]. apply Ht. reflexivity. }
  split; [exact Hv|]. split; [exact Hu|]. split; [exact Hn|].
  intros [Hiff _]. apply Hn, Hiff. rewrite Hu. discriminate.
Qed.

(** C9. The validator of the percentage accepts [v] exactly when [v], read
    as a number, is greater than 0 and less than 100.  A displayed percentage
    field whose value it rejects is reported by validation with the message
    of the rule, [onSubmit] shows the message, and everything [onSubmit] does
    is to show messages: no rule is created or updated. *)
Theorem percentage_out_of_range_blocks_submit
        (StringToNumber : string -> number) (resolves : bool) (d : Drawer)
        (address : list segment) (f : Field) :
  form_fields d !! address = Some f ->
  isField f = true ->
  field_display f = display_visible ->
  path_matches (item_path ["metadata"; "value"]) (field_path f) = true ->
  percentage_validator StringToNumber (field_value f) = false ->
  (forall v, percentage_validator StringToNumber v = true <->
             exists q, ToNumber StringToNumber v = Finite q
                       /\ (0 < q)%Q /\ (q < 100)%Q)
  /\ (exists err,
        In err (validate StringToNumber (form_fields d))
        /\ feedback_address err = address
        /\ In percentage_message (messages err)
        /\ In (message_error (join ", " (messages err)))
              (onSubmit StringToNumber resolves d))
  /\ (forall a, In a (onSubmit StringToNumber resolves d) ->
                exists text, a = message_error text)
  /\ update_calls (onSubmit StringToNumber resolves d) = []
  /\ create_calls (onSubmit StringToNumber resolves d) = [].
Proof.
  intros Hf Hd Hv Hp Hr.
  split; [apply percentage_validator_iff|].
  apply path_matches_item_value in Hp as [s Hp].
  set (failures := omap (rule_failure (field_value f))
                        (rules_of StringToNumber (field_path f))).
  assert (Hfail : In percentage_message failures).
  { subst failures. rewrite Hp, rules_of_item_value. simpl. rewrite Hr.
    destruct (isEmpty (field_value f)); simpl; auto. }
  assert (Herr : validate_field StringToNumber address f
                 = Some (mkFeedback address failures)).
  { unfold validate_field. rewrite Hd, Hv. simpl. fold failures.
    destruct failures; [destruct Hfail|reflexivity]. }
  assert (Hin : In (mkFeedback address failures)
                   (validate StringToNumber (form_fields d))).
  { apply in_validate. eauto. }
  assert (Hne : validate StringToNumber (form_fields d) <> []).
  { intros E. rewrite E in Hin. destruct Hin. }
  rewrite (onSubmit_invalid StringToNumber resolves d Hne).
  split; [|split; [|split]].
  - exists (mkFeedback address failures). repeat split; try done.
    apply in_map_iff. eauto.
  - intros a Ha. apply in_map_iff in Ha as (err & <- & _). eauto.
  - apply update_calls_messages.
  - apply create_calls_messages.
Qed.

(** C10. Validation relates [minReplicaCount] and [maxReplicaCount] in no
    way: in every form whose other fields are valid one by one, a minimum of
    5 with a maximum of 2 passes validation, and [onSubmit] makes the create
    or update call with these two counts. *)
Theorem submit_accepts_min_above_max
        (StringToNumber : string -> number) (resolves : bool) (d : Drawer) :
  (forall address f, form_fields d !! address = Some f ->
     field_path f <> [Key "minReplicaCount"] ->
     field_path f <> [Key "maxReplicaCount"] ->
     validate_field StringToNumber address f = None) ->
  (forall address f, form_fields d !! address = Some f ->
     field_path f = [Key "minReplicaCount"] -> field_value f = JNum 5) ->
  (forall address f, form_fields d !! address = Some f ->
     field_path f = [Key "maxReplicaCount"] -> field_value f = JNum 2) ->
  minReplicaCount (form_values d) = JNum 5 ->
  maxReplicaCount (form_values d) = JNum 2 ->
  validate StringToNumber (form_fields d) = []
  /\ exists call config,
       onSubmit StringToNumber resolves d
       = call :: (if resolves then [props_onClose] else [])
       /\ sent_config call = Some config
       /\ minReplicaCount config = JNum 5
       /\ maxReplicaCount config = JNum 2.
Proof.
  intros Hother Hmin Hmax Hvmin Hvmax.
  assert (Hv : validate StringToNumber (form_fields d) = []).
  { apply validate_nil. intros address f Hf.
    destruct (decide (field_path f = [Key "minReplicaCount"])) as [Emin|Nmin].
    - unfold validate_field. rewrite Emin, (Hmin address f Hf Emin).
      by destruct (isField f && bool_decide (field_display f = display_visible)).
    - destruct (decide (field_path f = [Key "maxReplicaCount"])) as [Emax|Nmax].
      + unfold validate_field. rewrite Emax, (Hmax address f Hf Emax).
        by destruct (isField f && bool_decide (field_display f = display_visible)).
      + by apply Hother. }
  split; [exact Hv|].
  destruct (onSubmit_call_valid StringToNumber resolves d Hv)
    as (call & config & Hs & Hc & Hmx & Hmn).
  exists call, config. rewrite Hmx, Hmn. auto.
Qed.

(** ** The properties at work on a form with one trigger *)

(** Goes through the fields of a form given as a concrete map. *)
Ltac each_field Hf :=
  apply elem_of_map_to_list in Hf;
  match type of Hf with
  | _ ∈ ?l => let l' := eval vm_compute in l in change l with l' in Hf
  end;
  repeat (apply elem_of_cons in Hf as [Hf|Hf];
          [injection Hf as -> ->|]);
  [.. | apply elem_of_nil in Hf; destruct Hf].

Lemma type_change_sets_metadata_fields_witness :
  let fields : Fields := list_to_map (item_fields 0 JUndefined) in
  let address := item_address 0 ["type"] in
  display_of (metadata_field address "value")
             (Effects.change_value address (JStr "cpu") fields)
  = Some display_visible
  /\ value_of (metadata_field address "timezone")
              (Effects.change_value address (JStr "cron") fields)
     = Some (JStr "Asia/Shanghai").
Proof.
  intros fields address.
  assert (Hf : fields !! address
               = Some (mkField (item_address 0 ["type"]) false display_visible JUndefined))
    by (vm_compute; reflexivity).
  assert (Ht : trigger_type_field 0 address
                 (mkField (item_address 0 ["type"]) false display_visible JUndefined))
    by (repeat split; reflexivity).
  assert (Hm : metadata_mounted address fields).
  { intros name Hn. simpl in Hn.
    destruct Hn as [<-|[<-|[<-|[<-|[<-|[<-|[]]]]]]];
      eexists; (split; [vm_compute; reflexivity|reflexivity]). }
  split.
  - apply (type_change_sets_metadata_fields 0 address _ (JStr "cpu") fields Hf Ht Hm).
    by left.
  - apply (type_change_sets_metadata_fields 0 address _ (JStr "cron") fields Hf Ht Hm).
    reflexivity.
Defined.

Lemma type_unset_hides_and_keeps_values_witness :
  let fields : Fields :=
    Effects.change_value (item_address 0 ["type"]) (JStr "cron")
      (list_to_map (item_fields 0 JUndefined)) in
  let address := item_address 0 ["type"] in
  ToBoolean (JStr EmptyString) = false
  /\ display_of (metadata_field address "start")
                (Effects.change_value address (JStr EmptyString) fields)
     = Some display_none
  /\ value_of (metadata_field address "timezone")
              (Effects.change_value address (JStr EmptyString) fields)
     = value_of (metadata_field address "timezone") fields.
Proof.
  intros fields address.
  assert (Hf : fields !! address
               = Some (mkField (item_address 0 ["type"]) false display_visible (JStr "cron")))
    by (vm_compute; reflexivity).
  assert (Ht : trigger_type_field 0 address
                 (mkField (item_address 0 ["type"]) false display_visible (JStr "cron")))
    by (repeat split; reflexivity).
  assert (Hm : metadata_mounted address fields).
  { intros name Hn. simpl in Hn.
    destruct Hn as [<-|[<-|[<-|[<-|[<-|[<-|[]]]]]]];
      eexists; (split; [vm_compute; reflexivity|reflexivity]). }
  destruct (type_unset_hides_and_keeps_values 0 address _ (JStr EmptyString) fields Hf Ht Hm eq_refl)
    as (Hhidden & Hvalues & _ & _).
  split; [reflexivity|]. split.
  - apply Hhidden. simpl. tauto.
  - apply Hvalues. discriminate.
Defined.

Lemma offered_options_are_free_or_own_witness :
  let items := [mkTrigger (JStr "cpu") JUndefined; mkTrigger (JStr "memory") JUndefined;
                empty_object] in
  items !! 2%nat = Some empty_object
  /\ exists opts,
       TriggersConfig.filtered_options items 2 = Some opts
       /\ forall o, In o opts <->
            In o typeOptions
            /\ ((forall other, In other items ->
                   trigger_type other <> JStr (option_value o))
                \/ trigger_type empty_object = JStr (option_value o)).
Proof.
  intros items. split; [reflexivity|].
  apply (offered_options_are_free_or_own items 2 empty_object). reflexivity.
Defined.

Lemma reachable_one_trigger_per_type_witness :
  let added := TriggersConfig.mkState [empty_object] true None false 0 typeOptions in
  let picked := TriggersConfig.input (mkTrigger (JStr "cpu") JUndefined) added in
  TriggersConfig.reachable [] (TriggersConfig.onOk true picked)
  /\ TriggersConfig.one_per_type (TriggersConfig.value (TriggersConfig.onOk true picked))
  /\ (length (TriggersConfig.currentTypes
                (TriggersConfig.value (TriggersConfig.onOk true picked))) <= 3)%nat.
Proof.
  intros added picked.
  assert (Hr : TriggersConfig.reachable [] (TriggersConfig.onOk true picked)).
  { eapply TriggersConfig.reachable_step; [|by apply TriggersConfig.step_ok].
    eapply TriggersConfig.reachable_step
      with (s := added);
      [|apply (TriggersConfig.step_select added (mkTypeOption "cpu" "CPU")
                 empty_object JUndefined);
        [reflexivity | by left | discriminate | reflexivity]].
    eapply TriggersConfig.reachable_step; [apply TriggersConfig.reachable_initial|].
    apply TriggersConfig.step_add; reflexivity. }
  split; [exact Hr|].
  apply (reachable_one_trigger_per_type [] _); [| |exact Hr].
  - intros item [].
  - intros o _. unfold TriggersConfig.count_type. simpl. lia.
Defined.


Lemma submit_sends_typed_triggers_witness :
  let d := mkDrawer "42" "web" None
             (cpu_form_fields (JNum 50) (JNum 1) (JNum 3))
             (mkScaledConfig (JNum 3) (JNum 1) [cpu_item (JNum 50); empty_object]) in
  validate integer_StringToNumber (form_fields d) = []
  /\ exists call config,
       onSubmit integer_StringToNumber true d = [call; props_onClose]
       /\ sent_config call = Some config
       /\ triggers config = [cpu_item (JNum 50)].
Proof.
  intros d.
  assert (Hv : validate integer_StringToNumber (form_fields d) = [])
    by (vm_compute; reflexivity).
  split; [exact Hv|].
  destruct (submit_sends_typed_triggers integer_StringToNumber true d Hv)
    as (call & config & Hs & Hc & Ht & _).
  exists call, config. auto.
Defined.

Lemma submit_updates_iff_rule_fetched_witness :
  let d := cpu_drawer (Some [rule_without_triggers]) (JNum 50) (JNum 1) (JNum 3) in
  validate integer_StringToNumber (form_fields d) = []
  /\ update_calls (onSubmit integer_StringToNumber true d) = [Some "rule-1"]
  /\ create_calls (onSubmit integer_StringToNumber true d) = [].
Proof.
  intros d.
  assert (Hv : validate integer_StringToNumber (form_fields d) = [])
    by (vm_compute; reflexivity).
  split; [exact Hv|].
  exact (submit_updates_iff_rule_fetched integer_StringToNumber true d Hv).
Defined.

Lemma percentage_out_of_range_blocks_submit_witness :
  let d := cpu_drawer None (JNum 150) (JNum 1) (JNum 3) in
  let address := item_address 0 ["metadata"; "layout"; "grid"; "value"] in
  percentage_validator integer_StringToNumber (JStr "150") = false
  /\ In (message_error percentage_message) (onSubmit integer_StringToNumber true d)
  /\ update_calls (onSubmit integer_StringToNumber true d) = []
  /\ create_calls (onSubmit integer_StringToNumber true d) = [].
Proof.
  intros d address.
  assert (Hf : form_fields d !! address
               = Some (mkField (item_address 0 ["metadata"; "value"]) false
                               display_visible (JStr "150")))
    by (vm_compute; reflexivity).
  destruct (percentage_out_of_range_blocks_submit
              integer_StringToNumber true d address _ Hf eq_refl eq_refl eq_refl eq_refl)
    as (_ & _ & _ & Hu & Hc).
  split; [reflexivity|]. split; [|split; [exact Hu|exact Hc]].
  vm_compute. by left.
Defined.

Lemma submit_accepts_min_above_max_witness :
  let d := cpu_drawer None (JNum 50) (JNum 5) (JNum 2) in
  validate integer_StringToNumber (form_fields d) = []
  /\ exists call config,
       onSubmit integer_StringToNumber true d = [call; props_onClose]
       /\ sent_config call = Some config
       /\ minReplicaCount config = JNum 5
       /\ maxReplicaCount config = JNum 2.
Proof.
  intros d.
  apply (submit_accepts_min_above_max integer_StringToNumber true d).
  - intros address f Hf Hmin Hmax. each_field Hf;
      try (vm_compute; reflexivity); exfalso; first [by apply Hmin | by apply Hmax].
  - intros address f Hf Hp. each_field Hf; try discriminate Hp; reflexivity.
  - intros address f Hf Hp. each_field Hf; try discriminate Hp; reflexivity.
  - reflexivity.
  - reflexivity.
Defined.

(** * Further properties *)

(** ** What the effects leave alone *)

Lemma shape_alter (g : Field -> Field) (a a' : list segment) (fields : Fields) :
  (forall f, shape (g f) = shape f) ->
  shape <$> alter g a fields !! a' = shape <$> fields !! a'.
Proof.
  intros Hg. destruct (decide (a = a')) as [<-|Hne].
  - rewrite lookup_alter_eq. destruct (fields !! a); simpl; [|done].
    by rewrite Hg.
  - by rewrite lookup_alter_ne.
Qed.

Lemma shape_setDisplay (d : Display) (a a' : list segment) (fields : Fields) :
  shape <$> setDisplay d a fields !! a' = shape <$> fields !! a'.
Proof. by apply shape_alter. Qed.

Lemma shape_setValue (v : jsval) (a a' : list segment) (fields : Fields) :
  shape <$> setValue v a fields !! a' = shape <$> fields !! a'.
Proof. by apply shape_alter. Qed.

Lemma shape_setValue_if_field (v : jsval) (a a' : list segment) (fields : Fields) :
  shape <$> setValue_if_field v a fields !! a' = shape <$> fields !! a'.
Proof.
  rewrite setValue_if_field_alter. apply shape_alter.
  intros f. by destruct (isField f).
Qed.

Lemma shape_onTypeReact (address a' : list segment) (fields : Fields) :
  shape <$> Effects.onTypeReact address fields !! a' = shape <$> fields !! a'.
Proof.
  unfold Effects.onTypeReact.
  destruct (take_field address fields) as [f|]; [|done].
  destruct (isField f); [|done].
  destruct (negb (ToBoolean (field_value f)));
    [|destruct (negb (strict_equal_string (field_value f) "cron"))];
    by rewrite ?shape_setDisplay, ?shape_setValue_if_field, ?shape_setDisplay.
Qed.

Lemma shape_onNumericValueChange (address a' : list segment) (fields : Fields) :
  shape <$> Effects.onNumericValueChange address fields !! a' = shape <$> fields !! a'.
Proof.
  unfold Effects.onNumericValueChange.
  destruct (take_field address fields) as [f|]; [|done].
  apply shape_setValue.
Qed.

Lemma shape_run_effect (address a' : list segment) (fields : Fields) (e : Effects.Effect) :
  In e Effects.effects ->
  shape <$> Effects.run_effect address fields e !! a' = shape <$> fields !! a'.
Proof.
  intros He. unfold Effects.run_effect.
  destruct (take_field address fields) as [f|]; [|done].
  destruct (Effects.effect_applies e address f); [|done].
  destruct He as [<-|[<-|[<-|[]]]]; simpl;
    auto using shape_onTypeReact, shape_onNumericValueChange.
Qed.

Lemma shape_change_value
      (address : list segment) (v : jsval) (fields : Fields) (a : list segment) :
  shape <$> Effects.change_value address v fields !! a = shape <$> fields !! a.
Proof.
  unfold Effects.change_value, Effects.effects. simpl fold_left.
  rewrite !shape_run_effect by (simpl; tauto).
  apply shape_setValue.
Qed.


(** ** The reaction to the type, again *)

Lemma onTypeReact_branch (address : list segment) (fields : Fields) (f : Field) :
  fields !! address = Some f -> isField f = true ->
  Effects.onTypeReact address fields =
  if negb (ToBoolean (field_value f)) then
    setDisplay display_none (metadata_field address "desiredReplicas")
      (setDisplay display_none (metadata_field address "end")
         (setDisplay display_none (metadata_field address "start")
            (setDisplay display_none (metadata_field address "value") fields)))
  else if negb (strict_equal_string (field_value f) "cron") then
    setDisplay display_none (metadata_field address "timezone")
      (setValue_if_field (JStr "Utilization") (metadata_field address "type")
         (setDisplay display_hidden (metadata_field address "type")
            (setDisplay display_none (metadata_field address "desiredReplicas")
               (setDisplay display_none (metadata_field address "end")
                  (setDisplay display_none (metadata_field address "start")
                     (setDisplay display_visible (metadata_field address "value")
                                 fields))))))
  else
    setValue_if_field (JStr "Asia/Shanghai") (metadata_field address "timezone")
      (setDisplay display_hidden (metadata_field address "timezone")
         (setDisplay display_none (metadata_field address "type")
            (setDisplay display_visible (metadata_field address "desiredReplicas")
               (setDisplay display_visible (metadata_field address "end")
                  (setDisplay display_visible (metadata_field address "start")
                     (setDisplay display_none (metadata_field address "value")
                                 fields)))))).
Proof.
  intros E Hf. unfold Effects.onTypeReact, take_field. rewrite E, Hf. reflexivity.
Qed.

(** Decides which of the six metadata fields an address is, if any. *)
Ltac which_metadata_field a' address :=
  destruct (decide (a' = metadata_field address "value")) as [->|?];
  [|destruct (decide (a' = metadata_field address "start")) as [->|?];
    [|destruct (decide (a' = metadata_field address "end")) as [->|?];
      [|destruct (decide (a' = metadata_field address "desiredReplicas")) as [->|?];
        [|destruct (decide (a' = metadata_field address "type")) as [->|?];
          [|destruct (decide (a' = metadata_field address "timezone")) as [->|?]]]]]].

Ltac lookup_other :=
  repeat (first [ rewrite lookup_setDisplay
                | rewrite lookup_setValue_if_field
                | rewrite lookup_setValue ];
          destruct (decide _) as [?|_]; [congruence|]).

Ltac field_twice :=
  lookup_metadata;
  match goal with
  | |- context [?F !! metadata_field ?a ?k] =>
      let g := fresh "g" in
      destruct (F !! metadata_field a k) as [g|]; simpl; [|reflexivity];
      destruct g as [? [|] ? ?]; reflexivity
  end.

Lemma onTypeReact_idempotent (address : list segment) (fields : Fields) :
  Effects.onTypeReact address (Effects.onTypeReact address fields)
  = Effects.onTypeReact address fields.
Proof.
  destruct (fields !! address) as [f|] eqn:E.
  2:{ unfold Effects.onTypeReact at 2, take_field. rewrite E.
      unfold Effects.onTypeReact, take_field. by rewrite E. }
  destruct (isField f) eqn:Hf.
  2:{ unfold Effects.onTypeReact at 2, take_field. rewrite E, Hf.
      unfold Effects.onTypeReact, take_field. by rewrite E, Hf. }
  assert (E' : Effects.onTypeReact address fields !! address = Some f)
    by (by rewrite onTypeReact_lookup_self).
  rewrite (onTypeReact_branch address _ f E' Hf).
  rewrite (onTypeReact_branch address fields f E Hf).
  apply map_eq. intros a'.
  destruct (negb (ToBoolean (field_value f)));
    [|destruct (negb (strict_equal_string (field_value f) "cron"))];
    (which_metadata_field a' address;
     [ field_twice | field_twice | field_twice | field_twice | field_twice
     | field_twice | by lookup_other ]).
Qed.

(** X2. The reaction to the type of a trigger is idempotent: changing the
    type field to the value it was just changed to gives the same fields
    again. *)
Theorem type_change_idempotent
        (i : nat) (address : list segment) (f : Field) (v : jsval) (fields : Fields) :
  fields !! address = Some f ->
  trigger_type_field i address f ->
  Effects.change_value address v (Effects.change_value address v fields)
  = Effects.change_value address v fields.
Proof.
  intros E Ht.
  rewrite (change_value_type_field i address f v fields E Ht).
  set (F1 := Effects.onTypeReact address (setValue v address fields)).
  assert (E1 : F1 !! address = Some (with_value v f)).
  { subst F1. rewrite onTypeReact_lookup_self, lookup_setValue.
    case_decide; [|done]. by rewrite E. }
  assert (Ht1 : trigger_type_field i address (with_value v f)).
  { destruct Ht as (? & ? & ?). by repeat split. }
  rewrite (change_value_type_field i address _ v F1 E1 Ht1).
  assert (Hid : setValue v address F1 = F1).
  { unfold setValue. apply alter_id. intros x Hx. rewrite E1 in Hx.
    by injection Hx as <-. }
  rewrite Hid. subst F1. apply onTypeReact_idempotent.
Qed.




Lemma path_matches_length (pat : list pattern_segment) (p : list segment) :
  path_matches pat p = true -> length pat = length p.
Proof.
  revert p. induction pat as [|x pat IH]; intros [|s p] H; simpl in H;
    try discriminate; [reflexivity|].
  apply andb_true_iff in H as [_ H]. simpl. f_equal. by apply IH.
Qed.

Lemma last_metadata_field (address : list segment) (name : string) :
  last (metadata_field address name) = Some (Key name).
Proof. unfold metadata_field, concat. simpl. apply last_snoc. Qed.

Lemma length_metadata_field (address : list segment) (name : string) :
  (4 <= length (metadata_field address name))%nat.
Proof.
  unfold metadata_field, Effects.metadataPath, concat.
  rewrite !length_app. simpl. lia.
Qed.

(** X4. The values the reaction writes start no effect: a value change of the
    subtype marker or of the [timezone] field of a trigger stores the value
    and does nothing else, so the reaction to the type cannot set itself off
    again. *)
Theorem marker_change_runs_no_effect
        (i : nat) (address : list segment) (name : string) (f : Field)
        (v : jsval) (fields : Fields) :
  name = "type" \/ name = "timezone" ->
  fields !! metadata_field address name = Some f ->
  field_path f = [Key "triggers"; Index i; Key "metadata"; Key name] ->
  Effects.change_value (metadata_field address name) v fields
  = setValue v (metadata_field address name) fields.
Proof.
  intros Hname E Hp.
  set (a := metadata_field address name) in *.
  set (F := setValue v a fields).
  assert (EF : F !! a = Some (with_value v f)).
  { subst F. rewrite lookup_setValue. case_decide; [|done]. by rewrite E. }
  assert (Hno : forall e, In e Effects.effects ->
                  Effects.effect_applies e a (with_value v f) = false).
  { intros e He. unfold Effects.effect_applies. simpl field_path. rewrite Hp.
    apply orb_false_iff. split.
    - destruct (path_matches (Effects.effect_pattern e) a) eqn:Hm; [|reflexivity].
      exfalso. destruct He as [<-|[<-|[<-|[]]]]; cbn [Effects.effect_pattern] in Hm.
      + apply path_matches_length in Hm. unfold Effects.type_pattern in Hm. simpl in Hm.
        pose proof (length_metadata_field address name). subst a. lia.
      + apply (path_matches_last [Lit (Key "triggers"); Any; Any]) in Hm.
        subst a. rewrite last_metadata_field in Hm.
        destruct Hname as [-> | ->]; discriminate.
      + apply (path_matches_last [Lit (Key "triggers"); Any; Any]) in Hm.
        subst a. rewrite last_metadata_field in Hm.
        destruct Hname as [-> | ->]; discriminate.
    - destruct He as [<-|[<-|[<-|[]]]]; destruct Hname as [-> | ->]; reflexivity. }
  assert (Hrun : forall e, In e Effects.effects -> Effects.run_effect a F e = F).
  { intros e He. unfold Effects.run_effect, take_field. rewrite EF.
    by rewrite (Hno e He). }
  unfold Effects.change_value, Effects.effects. simpl fold_left. fold F.
  rewrite !Hrun by (simpl; tauto). reflexivity.
Qed.

(** X5. The stored value of a numeric field is stable: after a change of a
    field that ['triggers.*.*.value'] or ['triggers.*.*.desiredReplicas']
    matches, what the field holds is never a number, and the change event
    that the callback's own [setValue] raises leaves it as it is. *)
Theorem numeric_change_is_stable
        (address : list segment) (f : Field) (v : jsval) (fields : Fields) :
  fields !! address = Some f ->
  numeric_field address f ->
  exists stored,
    value_of address (Effects.change_value address v fields) = Some stored
    /\ isNumber stored = false
    /\ value_of address
         (Effects.change_value address stored (Effects.change_value address v fields))
       = Some stored.
Proof.
  intros E Hn. exists (Effects.normalized v).
  split; [by apply (change_value_numeric address f)|].
  split; [by destruct v|].
  pose proof (shape_change_value address v fields address) as Hs.
  rewrite E in Hs. simpl in Hs.
  destruct (Effects.change_value address v fields !! address) as [g|] eqn:Eg;
    [|discriminate].
  simpl in Hs. injection Hs as Hpath _.
  assert (Hg : numeric_field address g).
  { unfold numeric_field, Effects.effect_applies in *. by rewrite Hpath. }
  rewrite (change_value_numeric address g _ _ Eg Hg).
  by rewrite normalized_idempotent.
Qed.

(** ** The table *)

Section Table.
Import TriggersConfig.

Lemma dataSource_row_of (items : list Trigger) :
  dataSource items = omap id (imap row_of items).
Proof. reflexivity. Qed.

Lemma row_of_Some (index : nat) (item : Trigger) (row : Row) :
  row_of index item = Some row ->
  row_index row = index /\ ToBoolean (trigger_type item) = true.
Proof.
  unfold row_of. destruct (ToBoolean (trigger_type item)); [|discriminate].
  simpl. destruct (strict_equal_string (trigger_type item) "cron");
    intros H; injection H as <-; auto.
Qed.

Lemma row_of_None (index : nat) (item : Trigger) :
  row_of index item = None -> ToBoolean (trigger_type item) = false.
Proof.
  unfold row_of. destruct (ToBoolean (trigger_type item)); [|done].
  simpl. by destruct (strict_equal_string (trigger_type item) "cron").
Qed.

Lemma currentTypes_cons (item : Trigger) (items : list Trigger) :
  currentTypes (item :: items)
  = (if ToBoolean (trigger_type item) then [trigger_type item] else [])
      ++ currentTypes items.
Proof.
  rewrite !currentTypes_filter. simpl.
  by destruct (ToBoolean (trigger_type item)).
Qed.




Lemma length_dataSource (items : list Trigger) :
  length (dataSource items) = length (currentTypes items).
Proof.
  rewrite dataSource_row_of.
  enough (H : forall n, length (omap id (imap (fun i => row_of (n + i)) items))
                        = length (currentTypes items)) by apply (H 0%nat).
  induction items as [|x items IH]; intros n; [reflexivity|].
  rewrite imap_cons, currentTypes_cons.
  assert (Hext : imap ((fun i => row_of (n + i)) ∘ S) items
                 = imap (fun i => row_of (S n + i)) items).
  { apply imap_ext. intros i y _. simpl. f_equal. lia. }
  rewrite Hext. simpl omap. specialize (IH (S n)).
  destruct (row_of (n + 0) x) as [r0|] eqn:Hx.
  - apply row_of_Some in Hx as [_ ->]. simpl. f_equal.
    etransitivity; [|apply IH]. reflexivity.
  - apply row_of_None in Hx. rewrite Hx. simpl.
    etransitivity; [|apply IH]. reflexivity.
Qed.




End Table.



(** X8. What the value column shows for a row: nothing for a cron trigger;
    the percentage followed by [%] for a cpu or memory trigger whose
    [metadata.value] is a non-empty string, nothing when it is the empty
    string, and [-%] when it is [undefined] or [null]. *)
Theorem table_value_cells (index : nat) (item : Trigger) (row : TriggersConfig.Row) :
  row_of index item = Some row ->
  (trigger_type item = JStr "cron" ->
     render_value (TriggersConfig.row_value row) = EmptyString)
  /\ (trigger_type item <> JStr "cron" ->
      forall s, Get (trigger_metadata item) "value" = JStr s ->
        (s <> EmptyString ->
           render_value (TriggersConfig.row_value row) = String.append s "%")
        /\ (s = EmptyString ->
              render_value (TriggersConfig.row_value row) = EmptyString))
  /\ (trigger_type item <> JStr "cron" ->
      Get (trigger_metadata item) "value" = JUndefined
      \/ Get (trigger_metadata item) "value" = JNull ->
      render_value (TriggersConfig.row_value row) = "-%").
Proof.
  unfold row_of. destruct (ToBoolean (trigger_type item)); [|discriminate].
  simpl. destruct (strict_equal_string (trigger_type item) "cron") eqn:Hc;
    intros H; injection H as <-; simpl.
  - apply strict_equal_string_iff in Hc.
    split; [reflexivity|]. split; intros Hn; congruence.
  - split; [|split].
    + intros Heq. apply strict_equal_string_iff in Heq. congruence.
    + intros _ s ->. unfold render_value. simpl. split.
      * intros Hs. destruct (String.eqb_spec s EmptyString); [done|reflexivity].
      * intros ->. reflexivity.
    + intros _ [-> | ->]; reflexivity.
Qed.

(** ** The add button and the options *)

Section Options.
Import TriggersConfig.






End Options.


Section Selection.
Import TriggersConfig.

Lemma filter_ext_iff {A} (P Q : A -> bool) (l : list A) :
  (forall x, In x l -> P x = true <-> Q x = true) ->
  List.filter P l = List.filter Q l.
Proof.
  intros H. apply filter_ext_in. intros x Hx. specialize (H x Hx).
  destruct (P x), (Q x); try reflexivity; destruct H as [H1 H2];
    [symmetry; by apply H1 | by apply H2].
Qed.

Lemma filtered_options_filter (items : list Trigger) (index : Z) (opts : list TypeOption) :
  filtered_options items index = Some opts ->
  exists P, opts = List.filter P typeOptions.
Proof.
  unfold filtered_options. destruct (currentTypeField items index); [|discriminate].
  intros H. apply (inj Some) in H. eauto.
Qed.

Lemma in_insert (items : list Trigger) (i : nat) (old new other : Trigger) :
  items !! i = Some old ->
  In other (<[i := new]> items) <->
  other = new \/ exists j, j <> i /\ items !! j = Some other.
Proof.
  intros Hi. rewrite <- list_elem_of_In, list_elem_of_lookup. split.
  - intros [j Hj]. destruct (decide (i = j)) as [<-|Hne].
    + rewrite list_lookup_insert_eq in Hj by (by eapply lookup_lt_Some).
      left. by injection Hj.
    + rewrite list_lookup_insert_ne in Hj by done. right. eauto.
  - intros [->|(j & Hne & Hj)].
    + exists i. apply list_lookup_insert_eq. by eapply lookup_lt_Some.
    + exists j. by rewrite list_lookup_insert_ne.
Qed.

End Selection.

(** X10. Picking one of the offered types does not change what is offered:
    in a list where no type is held twice, the options computed for a trigger
    after it was given one of the types offered to it are the options that
    were offered before, so it makes no difference whether the options effect
    runs again after the pick. *)
Theorem options_unchanged_by_pick
        (items : list Trigger) (i : nat) (item : Trigger) (opts : list TypeOption)
        (o : TypeOption) (metadata : jsval) :
  TriggersConfig.distinct_types items ->
  items !! i = Some item ->
  TriggersConfig.filtered_options items (Z.of_nat i) = Some opts ->
  In o opts ->
  TriggersConfig.filtered_options
    (<[i := mkTrigger (JStr (option_value o)) metadata]> items) (Z.of_nat i)
  = Some opts.
Proof.
  intros Hd Hi Hopts Ho.
  set (new := mkTrigger (JStr (option_value o)) metadata).
  set (items' := <[i := new]> items).
  assert (Hi' : items' !! i = Some new).
  { apply list_lookup_insert_eq. by eapply lookup_lt_Some. }
  destruct (currentTypeField_Some items i item Hi) as (field & Hf & _ & Hv).
  destruct (currentTypeField_Some items' i new Hi') as (field' & Hf' & _ & Hv').
  destruct (TriggersConfig.filtered_options items' (Z.of_nat i)) as [opts'|] eqn:Hopts';
    [|unfold TriggersConfig.filtered_options in Hopts'; rewrite Hf' in Hopts';
      discriminate].
  f_equal.
  destruct (filtered_options_filter _ _ _ Hopts) as [P HP].
  destruct (filtered_options_filter _ _ _ Hopts') as [P' HP'].
  pose proof (fun x => in_filtered_options items (Z.of_nat i) field x Hf opts Hopts)
    as Hin.
  pose proof (fun x => in_filtered_options items' (Z.of_nat i) field' x Hf' opts' Hopts')
    as Hin'.
  rewrite Hv in Hin. rewrite Hv' in Hin'.
  assert (Hsame : forall x, In x opts' <-> In x opts).
  { intros x. rewrite Hin, Hin'. apply Hin in Ho as [Ho_in Ho_c].
    assert (Hothers : forall j b t, j <> i -> items !! j = Some b ->
                        trigger_type item = JStr (option_value t) ->
                        In t typeOptions ->
                        trigger_type b <> JStr (option_value t)).
    { intros j b t Hne Hj Hit Ht Hb. apply Hne.
      apply (Hd j i b item Hj Hi); [|congruence].
      rewrite Hb. by apply option_value_nonempty. }
    split; intros [Hx Hc]; (split; [exact Hx|]).
    - destruct Hc as [Hc|Hc].
      + destruct (strict_equal_string (trigger_type item) (option_value x)) eqn:Hown.
        * right. by apply strict_equal_string_iff.
        * left. intros other Hother Heq.
          apply list_elem_of_In, list_elem_of_lookup in Hother as [j Hj].
          destruct (decide (j = i)) as [->|Hne].
          -- rewrite Hi in Hj. injection Hj as <-.
             apply strict_equal_string_iff in Heq. congruence.
          -- apply (Hc other); [|exact Heq].
             apply (in_insert items i item new other Hi). right. eauto.
      + simpl in Hc. injection Hc as Hc.
        destruct Ho_c as [Ho_c|Ho_c].
        * left. intros other Hother. rewrite <- Hc. by apply Ho_c.
        * right. by rewrite <- Hc.
    - destruct (String.eqb_spec (option_value o) (option_value x)) as [Heq|Hne].
      + right. simpl. by rewrite Heq.
      + left. intros other Hother Hheld.
        apply (in_insert items i item new other Hi) in Hother
          as [->|(j & Hj_ne & Hj)].
        * simpl in Hheld. congruence.
        * destruct Hc as [Hc|Hc].
          -- apply (Hc other); [|exact Hheld].
             apply list_elem_of_In, list_elem_of_lookup. eauto.
          -- by apply (Hothers j other x Hj_ne Hj Hc Hx). }
  subst opts opts'. apply filter_ext_iff. intros x Hx.
  specialize (Hsame x). rewrite !filter_In in Hsame. tauto.
Qed.

(** ** The modal in the reachable states *)

Section OnItem.
Import TriggersConfig.

Lemma length_dataSource_le (items : list Trigger) :
  (length (dataSource items) <= length items)%nat.
Proof.
  rewrite length_dataSource, currentTypes_filter.
  etransitivity; [apply List.filter_length_le|]. by rewrite length_map.
Qed.

Lemma shown_on_item_step (s s' : State) :
  shown_on_item s -> step s s' -> shown_on_item s'.
Proof.
  intros Hs Hstep.
  destruct Hstep as [s s' Hv Hb He | s s' row Hv Hr He | s row Hv Hr
                    | s o item metadata Hv Ho H0 Hi | s item metadata Hv H0 Hi
                    | s Hv | s Hv | s s' He].
  - apply options_effect_inv in He as [[He _]|(_ & opts & He & ->)]; [discriminate|].
    intros _. unfold on_item. simpl. split; [|discriminate].
    unfold push. rewrite length_app. simpl. lia.
  - apply options_effect_inv in He as [[He _]|(_ & opts & He & ->)]; [discriminate|].
    intros _. unfold on_item. simpl. split; [|eauto].
    pose proof (length_dataSource_le (value s)). lia.
  - intros Hv'. simpl in Hv'. congruence.
  - unfold input. destruct (Z.ltb_spec (currentIndex s) 0) as [?|_]; [lia|].
    intros _. destruct (Hs Hv) as [Hon Hp]. unfold on_item in *. simpl.
    rewrite length_insert. auto.
  - unfold input. destruct (Z.ltb_spec (currentIndex s) 0) as [?|_]; [lia|].
    intros _. destruct (Hs Hv) as [Hon Hp]. unfold on_item in *. simpl.
    rewrite length_insert. auto.
  - intros Hv'. discriminate Hv'.
  - intros Hv'. unfold onClose in Hv'. destruct (isEditing s); discriminate Hv'.
  - apply options_effect_inv in He as [[_ ->]|(Hv & opts & He & ->)]; [done|].
    intros _. destruct (Hs Hv) as [Hon Hp]. split; [exact Hon|exact Hp].
Qed.

Lemma shown_on_item_reachable (items : list Trigger) (s : State) :
  reachable items s -> shown_on_item s.
Proof.
  intros Hr. induction Hr as [|s s' _ IH Hstep].
  - intros Hv. discriminate Hv.
  - by eapply shown_on_item_step.
Qed.

End OnItem.

(** X11. In every state the user can reach, a modal that is shown is on an
    item of the array: the options effect finds the type field and does not
    throw, and the cancel of an edit finds the snapshot it sets the value
    back to. *)
Theorem shown_modal_is_on_an_item (items : list Trigger) (s : TriggersConfig.State) :
  TriggersConfig.reachable items s ->
  TriggersConfig.visible s = true ->
  (exists item,
      0 <= TriggersConfig.currentIndex s
      /\ TriggersConfig.value s !! Z.to_nat (TriggersConfig.currentIndex s) = Some item)
  /\ (exists s', TriggersConfig.options_effect s = Some s')
  /\ (TriggersConfig.isEditing s = true ->
      exists pv, TriggersConfig.previousValue s = Some pv
                 /\ TriggersConfig.value (TriggersConfig.onClose s) = pv).
Proof.
  intros Hr Hv. destruct (shown_on_item_reachable items s Hr Hv) as [[H0 Hlt] Hp].
  assert (Hitem : exists item,
             TriggersConfig.value s !! Z.to_nat (TriggersConfig.currentIndex s)
             = Some item).
  { apply lookup_lt_is_Some. lia. }
  destruct Hitem as [item Hitem]. split; [eauto|]. split.
  - unfold TriggersConfig.options_effect. rewrite Hv.
    destruct (currentTypeField_Some _ _ item Hitem) as (field & Hf & _).
    rewrite Z2Nat.id in Hf by lia.
    unfold TriggersConfig.filtered_options. rewrite Hf. eauto.
  - intros He. destruct (Hp He) as [pv Hpv]. exists pv. split; [exact Hpv|].
    unfold TriggersConfig.onClose. rewrite He, Hpv. reflexivity.
Qed.

Section Delete.
Import TriggersConfig.



End Delete.


(** ** Submitting, again *)

Lemma calls_of_onSubmit (StringToNumber : string -> number) (resolves : bool) (d : Drawer) :
  (validate StringToNumber (form_fields d) = []
   /\ exists call, onSubmit StringToNumber resolves d
                   = call :: (if resolves then [props_onClose] else [])
                   /\ (length (update_calls [call]) + length (create_calls [call]) = 1)%nat)
  \/ (validate StringToNumber (form_fields d) <> []
      /\ onSubmit StringToNumber resolves d
         = List.map (fun err => message_error (join ", " (messages err)))
                    (validate StringToNumber (form_fields d))).
Proof.
  destruct (validate StringToNumber (form_fields d)) as [|err errs] eqn:E.
  - left. split; [reflexivity|].
    rewrite (onSubmit_valid StringToNumber resolves d E). cbv zeta.
    destruct (isEditing d); eexists; split; reflexivity.
  - right. split; [discriminate|].
    rewrite <- E. apply onSubmit_invalid. rewrite E. discriminate.
Qed.

Lemma no_close_in_messages (errs : list IFormFeedback) :
  ~ In props_onClose
       (List.map (fun err => message_error (join ", " (messages err))) errs).
Proof. intros H. apply in_map_iff in H as (err & Heq & _). discriminate. Qed.

(** X13. [onSubmit] makes one service call or none, never a create and an
    update together: it makes one exactly when validation has passed, it
    closes the drawer only after a call that resolved, and when validation
    has failed all it does is to show one message for each invalid field. *)
Theorem submit_calls_once_or_shows_messages
        (StringToNumber : string -> number) (resolves : bool) (d : Drawer) :
  let actions := onSubmit StringToNumber resolves d in
  let errors := validate StringToNumber (form_fields d) in
  (length (update_calls actions) + length (create_calls actions) <= 1)%nat
  /\ ((length (update_calls actions) + length (create_calls actions) = 1)%nat
      <-> errors = [])
  /\ (In props_onClose actions <-> errors = [] /\ resolves = true)
  /\ (errors <> [] ->
      length actions = length errors
      /\ forall a, In a actions -> exists text, a = message_error text).
Proof.
  intros actions errors. subst actions errors.
  destruct (calls_of_onSubmit StringToNumber resolves d)
    as [(Hv & call & -> & Hone)|(Hv & ->)].
  - assert (Hsame : forall r : bool,
               (length (update_calls (call :: (if r then [props_onClose] else [])))
                + length (create_calls (call :: (if r then [props_onClose] else []))))%nat
               = (length (update_calls [call]) + length (create_calls [call]))%nat).
    { intros r. destruct call, r; reflexivity. }
    rewrite Hsame, Hone. split; [lia|]. split; [tauto|]. split; [|congruence].
    split.
    + intros [Hc|Hc].
      * exfalso. subst call. simpl in Hone. lia.
      * destruct resolves; [auto|destruct Hc].
    + intros [_ ->]. right. by left.
  - rewrite update_calls_messages, create_calls_messages. simpl.
    split; [lia|]. split; [split; [lia|congruence]|]. split.
    + split; [intros H; by apply no_close_in_messages in H|tauto].
    + intros _. split; [apply length_map|].
      intros a Ha. apply in_map_iff in Ha as (err & <- & _). eauto.
Qed.

(** ** The status title *)

(** X14. For a fetched rule with an id, a click on the button of the title
    sends one [applyCancelRules] for that rule, with action ['cancel'] when
    the rule is applied ([isApplied] is ['Y']) and ['apply'] otherwise; when
    the call resolves the status shown is toggled, and a second click sends
    the other action. *)
Theorem title_click_follows_status
        (StringToNumber : string -> number) (d : Drawer) (started : bool)
        (rule : ScaledRule) (rest : list ScaledRule) (resolves : bool) :
  scaledRules d = Some (rule :: rest) ->
  ruleId rule <> EmptyString ->
  let applied := String.eqb (isApplied rule) "Y" in
  let call (cancel : bool) :=
    StatusTitle.applyCancelRules
      (ToNumber StringToNumber (JStr (runtimeId d))) (JStr (ruleId rule))
      (if cancel then "cancel" else "apply") (i18n_s "operate successfully") in
  let props := title_props StringToNumber d (started_effect d started) in
  StatusTitle.tag props
  = Some (if applied then i18n_s "activated" else i18n_s "stopped")
  /\ StatusTitle.click resolves props
     = call applied :: (if resolves then [StatusTitle.toggleStatus] else [])
  /\ started_after (StatusTitle.click resolves props) (started_effect d started)
     = (if resolves then negb applied else applied)
  /\ StatusTitle.click resolves
       (title_props StringToNumber d
          (started_after (StatusTitle.click true props) (started_effect d started)))
     = call (negb applied) :: (if resolves then [StatusTitle.toggleStatus] else []).
Proof.
  intros Hr Hid applied call props. subst applied call props.
  unfold title_props, started_effect, StatusTitle.click, StatusTitle.button,
    StatusTitle.tag, StatusTitle.takeAction. rewrite Hr. simpl.
  destruct (String.eqb_spec (ruleId rule) EmptyString) as [?|_]; [done|]. simpl.
  destruct (String.eqb (isApplied rule) "Y"), resolves; simpl;
    rewrite ?Hr; simpl;
    destruct (String.eqb_spec (ruleId rule) EmptyString) as [?|_]; try done.
Qed.

(** X15. Without a fetched rule, or for a rule whose id is empty, the title
    shows neither the tag nor the button, and a click sends nothing. *)
Theorem title_without_rule_is_bare
        (StringToNumber : string -> number) (d : Drawer) (started resolves : bool) :
  (forall rule rest, scaledRules d = Some (rule :: rest) -> ruleId rule = EmptyString) ->
  let props := title_props StringToNumber d started in
  StatusTitle.tag props = None
  /\ StatusTitle.button props = None
  /\ StatusTitle.click resolves props = [].
Proof.
  intros Hno props. subst props.
  unfold title_props, StatusTitle.click, StatusTitle.button, StatusTitle.tag.
  destruct (scaledRules d) as [[|rule rest]|]; simpl; auto.
  rewrite (Hno rule rest eq_refl). simpl. auto.
Qed.

(** ** The percentage of a value that is not a string *)



(** ** The further properties at work *)

Lemma type_change_idempotent_witness :
  let fields : Fields := list_to_map (item_fields 0 JUndefined) in
  let address := item_address 0 ["type"] in
  Effects.change_value address (JStr "cron")
    (Effects.change_value address (JStr "cron") fields)
  = Effects.change_value address (JStr "cron") fields.
Proof.
  intros fields address.
  apply (type_change_idempotent 0 address
           (mkField (item_address 0 ["type"]) false display_visible JUndefined)).
  - vm_compute. reflexivity.
  - repeat split; reflexivity.
Defined.


Lemma marker_change_runs_no_effect_witness :
  let fields : Fields := list_to_map (item_fields 0 (JStr "cpu")) in
  let address := item_address 0 ["type"] in
  Effects.change_value (metadata_field address "type") (JStr "Utilization") fields
  = setValue (JStr "Utilization") (metadata_field address "type") fields.
Proof.
  intros fields address.
  apply (marker_change_runs_no_effect 0 address "type"
           (mkField (item_address 0 ["metadata"; "type"]) false display_none
                    (JStr "Utilization"))).
  - by left.
  - vm_compute. reflexivity.
  - reflexivity.
Defined.

Lemma numeric_change_is_stable_witness :
  let fields : Fields := list_to_map (item_fields 0 (JStr "cpu")) in
  let address := item_address 0 ["metadata"; "layout"; "grid"; "value"] in
  exists stored,
    value_of address (Effects.change_value address (JNum 85) fields) = Some stored
    /\ isNumber stored = false
    /\ value_of address
         (Effects.change_value address stored
            (Effects.change_value address (JNum 85) fields))
       = Some stored.
Proof.
  intros fields address.
  apply (numeric_change_is_stable address
           (mkField (item_address 0 ["metadata"; "value"]) false display_none
                    JUndefined)).
  - vm_compute. reflexivity.
  - left. vm_compute. reflexivity.
Defined.


Lemma table_value_cells_witness :
  let item := cpu_item (JNum 50) in
  let row := TriggersConfig.mkRow "CPU" (JStr "50") 0 in
  row_of 0 item = Some row
  /\ render_value (TriggersConfig.row_value row) = "50%".
Proof.
  intros item row.
  assert (H : row_of 0 item = Some row) by reflexivity.
  destruct (table_value_cells 0 item row H) as (_ & Hs & _).
  split; [exact H|].
  apply (Hs ltac:(discriminate) "50" eq_refl). discriminate.
Defined.


Lemma options_unchanged_by_pick_witness :
  let items := [mkTrigger (JStr "cpu") JUndefined; empty_object] in
  let opts := [mkTypeOption "memory" (i18n_s "memory"); mkTypeOption "cron" "Cron"] in
  TriggersConfig.filtered_options items 1 = Some opts
  /\ TriggersConfig.filtered_options
       (<[1%nat := mkTrigger (JStr "cron") JUndefined]> items) 1
     = Some opts.
Proof.
  intros items opts. split; [reflexivity|].
  apply (options_unchanged_by_pick items 1 empty_object opts
           (mkTypeOption "cron" "Cron") JUndefined).
  - intros i j a b Hi Hj Ha Hab.
    destruct i as [|[|i]], j as [|[|j]]; simpl in Hi, Hj;
      try discriminate; try reflexivity;
      injection Hi as <-; injection Hj as <-; discriminate.
  - reflexivity.
  - reflexivity.
  - simpl. tauto.
Defined.

Lemma shown_modal_is_on_an_item_witness :
  let added := TriggersConfig.mkState [empty_object] true None false 0 typeOptions in
  TriggersConfig.reachable [] added
  /\ exists s', TriggersConfig.options_effect added = Some s'.
Proof.
  intros added.
  assert (Hr : TriggersConfig.reachable [] added).
  { eapply TriggersConfig.reachable_step; [apply TriggersConfig.reachable_initial|].
    apply TriggersConfig.step_add; reflexivity. }
  split; [exact Hr|].
  destruct (shown_modal_is_on_an_item [] added Hr eq_refl) as (_ & He & _).
  exact He.
Defined.


Lemma title_click_follows_status_witness :
  let rule := mkScaledRule "rule-1" "Y" (mkScaledConfig (JNum 3) (JNum 1) []) in
  let d := cpu_drawer (Some [rule]) (JNum 50) (JNum 1) (JNum 3) in
  StatusTitle.click true (title_props integer_StringToNumber d (started_effect d false))
  = [StatusTitle.applyCancelRules
       (ToNumber integer_StringToNumber (JStr "42")) (JStr "rule-1") "cancel"
       (i18n_s "operate successfully");
     StatusTitle.toggleStatus].
Proof.
  intros rule d.
  destruct (title_click_follows_status integer_StringToNumber d false rule [] true
              eq_refl ltac:(discriminate)) as (_ & Hc & _).
  exact Hc.
Defined.

Lemma title_without_rule_is_bare_witness :
  let d := cpu_drawer (Some []) (JNum 50) (JNum 1) (JNum 3) in
  StatusTitle.button (title_props integer_StringToNumber d true) = None
  /\ StatusTitle.click true (title_props integer_StringToNumber d true) = [].
Proof.
  intros d.
  destruct (title_without_rule_is_bare integer_StringToNumber d true true)
    as (_ & Hb & Hc).
  - intros rule rest H. discriminate H.
  - split; [exact Hb|exact Hc].
Defined.

